(** * Emacs-like quick picker (ido-file-explorer): path display and directory browsing

    A shallow embedding of [src/extension.ts].  The extension keeps one module
    level variable ([currentPath]) and one QuickPick widget whose [items],
    [title] and [value] it rewrites from three event handlers.  Everything the
    code obtains from Node or from VS Code (the [path] module, [fs], the
    workspace folders, the locale dependent string methods) is gathered in the
    record [Host]; the code itself is translated function by function.

    Strings are sequences of code units; one [ascii] stands for one code unit.
    Only [startsWith], [substring], [endsWith], [includes] and [===] are
    interpreted, exactly as ECMAScript defines them on code units; the locale
    and Unicode dependent methods ([toLowerCase], [trim], [localeCompare]) are
    fields of [Host]. *)

From Stdlib Require Import String Ascii List ZArith Lia Bool.
From Stdlib Require Import Sorting.Sorted Sorting.Permutation.
Import ListNotations.
Open Scope string_scope.

(** ** ECMAScript string methods used by the extension *)

Module Js.

Fixpoint startsWith (s searchString : string) {struct searchString} : bool :=
  match searchString with
  | EmptyString => true
  | String c p =>
      match s with
      | EmptyString => false
      | String d r => Ascii.eqb c d && startsWith r p
      end
  end.

(** [s.substring(start)], for [0 <= start]; a start past the end yields the
    empty string. *)
Fixpoint substring (s : string) (start : nat) {struct start} : string :=
  match start with
  | O => s
  | S n =>
      match s with
      | EmptyString => EmptyString
      | String _ r => substring r n
      end
  end.

Definition endsWith (s searchString : string) : bool :=
  (String.length searchString <=? String.length s)%nat
  && (substring s (String.length s - String.length searchString) =? searchString).

Fixpoint includes (s searchString : string) {struct s} : bool :=
  startsWith s searchString
  || match s with
     | EmptyString => false
     | String _ r => includes r searchString
     end.

(** The two characters that cannot be written inside a literal here. *)
Definition dquote : string := String (ascii_of_nat 34) EmptyString.
Definition backslash : string := String (ascii_of_nat 92) EmptyString.

End Js.

(** ** Results of calls that may throw *)

Inductive result (A : Type) : Type :=
| Ok (a : A)
| Throw (error : string).
Arguments Ok {A} a.
Arguments Throw {A} error.

Definition bind {A B : Type} (r : result A) (k : A -> result B) : result B :=
  match r with
  | Ok a => k a
  | Throw e => Throw e
  end.

Notation "'let*' x ':=' r 'in' k" := (bind r (fun x => k))
  (at level 10, x name, r at level 100, k at level 200).

(** ** The POSIX flavour of Node's [path] module

    [path.join] and [path.dirname] are library code.  [dirname] follows the
    loop of Node's implementation; [normalize] is given by segments: empty and
    ["."] segments vanish, [".."] removes the segment before it, and an
    absolute path never climbs above ["/"]. *)

Module Posix.

Definition slash : ascii := ascii_of_nat 47.
Definition sep : string := "/".

(** [s.split("/")]: the segments between separators, never an empty list. *)
Fixpoint split (s : string) : list string :=
  match s with
  | EmptyString => [EmptyString]
  | String c r =>
      if Ascii.eqb c slash then EmptyString :: split r
      else match split r with
           | [] => [String c EmptyString]
           | seg :: segs => String c seg :: segs
           end
  end.

Definition isAbsolute (path : string) : bool := Js.startsWith path "/".

(** One step of segment resolution; [res] holds the segments kept so far, the
    most recent one first. *)
Definition pushSegment (allowAboveRoot : bool) (res : list string) (seg : string)
  : list string :=
  if (seg =? "") || (seg =? ".") then res
  else if seg =? ".." then
    match res with
    | [] => if allowAboveRoot then [".."] else []
    | top :: below =>
        if top =? ".." then (if allowAboveRoot then ".." :: res else res)
        else below
    end
  else seg :: res.

Definition segments (allowAboveRoot : bool) (path : string) : list string :=
  fold_left (pushSegment allowAboveRoot) (split path) [].

Definition normalizeString (path : string) (allowAboveRoot : bool) : string :=
  String.concat "/" (rev (segments allowAboveRoot path)).

Definition normalize (path : string) : string :=
  if path =? "" then "."
  else
    let isAbs := isAbsolute path in
    let trailingSeparator := Js.endsWith path "/" in
    let p := normalizeString path (negb isAbs) in
    if p =? "" then
      (if isAbs then "/" else if trailingSeparator then "./" else ".")
    else
      (if isAbs then "/" else "") ++ p ++ (if trailingSeparator then "/" else "").

Definition join (args : list string) : string :=
  match filter (fun arg => negb (arg =? "")) args with
  | [] => "."
  | parts => normalize (String.concat "/" parts)
  end.

Definition isSlashAt (path : string) (i : nat) : bool :=
  match String.get i path with
  | Some c => Ascii.eqb c slash
  | None => false
  end.

(** The backwards scan of [dirname], for [i] from [path.length - 1] down to 1;
    [None] stands for [end === -1]. *)
Fixpoint dirnameScan (path : string) (i : nat) (matchedSlash : bool) : option nat :=
  match i with
  | O => None
  | S i' =>
      if isSlashAt path i then
        (if negb matchedSlash then Some i else dirnameScan path i' matchedSlash)
      else dirnameScan path i' false
  end.

Definition dirname (path : string) : string :=
  if (String.length path =? 0)%nat then "."
  else
    let hasRoot := isSlashAt path 0 in
    match dirnameScan path (String.length path - 1) true with
    | None => if hasRoot then "/" else "."
    | Some e =>
        if hasRoot && (e =? 1)%nat then "//"
        else String.substring 0 e path
    end.

(** Two paths name the same location when they agree on being absolute and
    resolve to the same segments (a trailing separator, repeated separators,
    ["."] and [".."] do not matter). *)
Definition resolved (path : string) : bool * list string :=
  (isAbsolute path, segments (negb (isAbsolute path)) path).

Definition pathEqual (p q : string) : Prop := resolved p = resolved q.

Definition nonEmpty (seg : string) : bool := negb (seg =? "").

(** The segments of a path that are not empty. *)
Definition names (path : string) : list string := filter nonEmpty (split path).

Fixpoint hasSlash (s : string) : bool :=
  match s with
  | EmptyString => false
  | String c r => Ascii.eqb c slash || hasSlash r
  end.

(** A segment that resolution keeps as it is. *)
Definition proper (seg : string) : Prop :=
  hasSlash seg = false /\ seg <> "" /\ seg <> "." /\ seg <> "..".

End Posix.

(** ** What the extension gets from its host *)

Module Stats.
Record t : Type := mk { isDirectory : bool; isFile : bool }.
End Stats.

Record Host : Type := {
  (* node:path *)
  sep : string;
  join : list string -> string;
  dirname : string -> string;
  (* String.prototype *)
  toLowerCase : string -> string;
  trim : string -> string;
  localeCompare : string -> string -> Z;
  (* vscode.workspace.workspaceFolders, each folder by its uri.fsPath *)
  workspaceFolders : option (list string);
  (* vscode.window.activeTextEditor, by its document.uri.fsPath *)
  activeTextEditor : option string;
  (* fs.promises *)
  readdir : string -> result (list string);
  stat : string -> result Stats.t;
  writeFile : string -> result unit;
  (* vscode.workspace.openTextDocument followed by window.showTextDocument *)
  openAndShow : string -> result unit
}.

(** ** PathResolver: [getRelativePath] and [getFullPath] *)

Definition getRelativePath (h : Host) (fullPath : string) : string :=
  match workspaceFolders h with
  | Some (workspaceRoot :: _) =>
      if Js.startsWith fullPath workspaceRoot then
        let relativePath := Js.substring fullPath (String.length workspaceRoot) in
        let result :=
          if Js.startsWith relativePath (sep h) || Js.startsWith relativePath Js.backslash
          then Js.substring relativePath 1
          else relativePath in
        if negb (result =? "") && negb (Js.endsWith result "/")
        then result ++ "/"
        else result
      else fullPath
  | _ => fullPath
  end.

Definition getFullPath (h : Host) (relativePath : string) : string :=
  match workspaceFolders h with
  | Some (workspaceRoot :: _) => join h [workspaceRoot; relativePath]
  | _ => relativePath
  end.

(** ** DirectoryBrowser: the entries of the QuickPick *)

(** [uri] holds the [fsPath] of the item's [vscode.Uri]; [description] and
    [isCreateFile] are optional properties. *)
Record FileItem : Type := {
  label : string;
  description : option string;
  uri : string;
  isDirectory : bool;
  isFile : bool;
  isCreateFile : option bool
}.

(** Truthiness of the optional flag, as in [!item.isCreateFile]. *)
Definition truthy (flag : option bool) : bool :=
  match flag with
  | Some true => true
  | _ => false
  end.

(** The three object literals of the source. *)
Definition goUpItem (h : Host) (currentPath : string) : FileItem :=
  {| label := "..";
     description := Some "Go up one directory";
     uri := dirname h currentPath;
     isDirectory := true;
     isFile := false;
     isCreateFile := None |}.

Definition childItem (file fullPath : string) (st : Stats.t) : FileItem :=
  {| label := file ++ (if Stats.isDirectory st then "/" else "");
     description := None;
     uri := fullPath;
     isDirectory := Stats.isDirectory st;
     isFile := Stats.isFile st;
     isCreateFile := None |}.

(** The label of the create-file item; the pictograph is written by its
    bytes. *)
Definition createLabel (value : string) : string :=
  "📄 Create " ++ Js.dquote ++ value ++ Js.dquote.

Definition createFileItem (h : Host) (currentPath value : string) : FileItem :=
  {| label := createLabel value;
     description := Some "Create new file";
     uri := join h [currentPath; value];
     isDirectory := false;
     isFile := true;
     isCreateFile := Some true |}.

(** The comparison function handed to [items.sort]. *)
Definition compareItems (h : Host) (a b : FileItem) : Z :=
  if label a =? ".." then (-1)%Z
  else if label b =? ".." then 1%Z
  else if isDirectory a && negb (isDirectory b) then (-1)%Z
  else if negb (isDirectory a) && isDirectory b then 1%Z
  else localeCompare h (label a) (label b).

(** [Array.prototype.sort] is stable and, for a comparison function that is a
    consistent ordering, yields the one stable arrangement in which no element
    compares greater than a later one; it is modelled by stable insertion.
    An element goes before the first element it does not compare greater
    than, and elements are inserted from the last to the first, so equal
    elements keep their order.  The function is never applied to an element
    and itself. *)
Fixpoint insertItem (compareFn : FileItem -> FileItem -> Z) (x : FileItem)
  (sorted : list FileItem) : list FileItem :=
  match sorted with
  | [] => [x]
  | y :: rest =>
      if (compareFn x y <=? 0)%Z then x :: y :: rest
      else y :: insertItem compareFn x rest
  end.

Definition sort (compareFn : FileItem -> FileItem -> Z) (items : list FileItem)
  : list FileItem :=
  fold_right (insertItem compareFn) [] items.

(** The [for (const file of files)] loop; [stat] may throw and ends it. *)
Fixpoint statLoop (h : Host) (currentPath : string) (files : list string)
  (items : list FileItem) : result (list FileItem) :=
  match files with
  | [] => Ok items
  | file :: rest =>
      let fullPath := join h [currentPath; file] in
      let* st := stat h fullPath in
      statLoop h currentPath rest (items ++ [childItem file fullPath st])
  end.

(** The body of the [try] block of [getDirectoryItems]. *)
Definition tryDirectoryItems (h : Host) (currentPath : string)
  : result (list FileItem) :=
  let* files := readdir h currentPath in
  let items :=
    match workspaceFolders h with
    | Some (workspaceRoot :: _) =>
        if negb (currentPath =? workspaceRoot) then [goUpItem h currentPath] else []
    | _ => []
    end in
  let* items := statLoop h currentPath files items in
  Ok (sort (compareItems h) items).

(** [getDirectoryItems] reads the module variable [currentPath], passed here;
    the second component lists the messages given to [showErrorMessage]. *)
Definition getDirectoryItems (h : Host) (currentPath : string)
  : list FileItem * list string :=
  match tryDirectoryItems h currentPath with
  | Ok items => (items, [])
  | Throw error => ([], ["Error reading directory: " ++ error])
  end.

(** ** The session: [currentPath] and the QuickPick *)

Record Session : Type := {
  currentPath : string;
  (* quickPick *)
  title : string;
  items : list FileItem;
  value : string;
  visible : bool;
  (* what the user and the console were told, oldest first *)
  errorMessages : list string;
  console : list string;
  (* files written and documents shown, oldest first *)
  written : list string;
  shown : list string
}.

Definition setCurrentPath (s : Session) (p : string) : Session :=
  {| currentPath := p; title := title s; items := items s; value := value s;
     visible := visible s; errorMessages := errorMessages s;
     console := console s; written := written s; shown := shown s |}.

Definition showError (s : Session) (msgs : list string) : Session :=
  {| currentPath := currentPath s; title := title s; items := items s;
     value := value s; visible := visible s;
     errorMessages := errorMessages s ++ msgs;
     console := console s; written := written s; shown := shown s |}.

Definition consoleLog (s : Session) (msg : string) : Session :=
  {| currentPath := currentPath s; title := title s; items := items s;
     value := value s; visible := visible s; errorMessages := errorMessages s;
     console := console s ++ [msg]; written := written s; shown := shown s |}.

Definition titleOf (h : Host) (path : string) : string :=
  ">>> " ++ getRelativePath h path.

(** The boundary test at the head of [navigateToPathAndUpdateQuickPick]. *)
Definition aboveWorkspaceRoot (h : Host) (newPath : string) : bool :=
  match workspaceFolders h with
  | Some (workspaceRoot :: _) =>
      (String.length newPath <? String.length workspaceRoot)%nat
      || negb (Js.startsWith newPath workspaceRoot)
  | _ => false
  end.

Definition navigateToPathAndUpdateQuickPick (h : Host) (s : Session)
  (newPath : string) : Session :=
  if aboveWorkspaceRoot h newPath then
    consoleLog s "Prevented navigation above workspace root"
  else
    let (newItems, msgs) := getDirectoryItems h newPath in
    {| currentPath := newPath;
       title := titleOf h newPath;
       items := newItems;
       value := "";
       visible := visible s;
       errorMessages := errorMessages s ++ msgs;
       console := console s;
       written := written s;
       shown := shown s |}.

(** The branch taken by the [onDidAccept] handler for the selected item. *)
Inductive Action : Type :=
| NavigateUp (parent : string)
| CreateAndOpen (fsPath : string)
| NavigateInto (fsPath : string)
| Open (fsPath : string).

Definition acceptAction (h : Host) (currentPath : string) (selected : FileItem)
  : Action :=
  if label selected =? ".." then NavigateUp (dirname h currentPath)
  else if truthy (isCreateFile selected) then CreateAndOpen (uri selected)
  else if isDirectory selected then NavigateInto (uri selected)
  else Open (uri selected).

Definition recordWrite (s : Session) (p : string) : Session :=
  {| currentPath := currentPath s; title := title s; items := items s;
     value := value s; visible := visible s; errorMessages := errorMessages s;
     console := console s; written := written s ++ [p]; shown := shown s |}.

(** A document was opened and shown, then [quickPick.hide()]. *)
Definition showAndHide (s : Session) (p : string) : Session :=
  {| currentPath := currentPath s; title := title s; items := items s;
     value := value s; visible := false; errorMessages := errorMessages s;
     console := console s; written := written s; shown := shown s ++ [p] |}.

Definition perform (h : Host) (s : Session) (a : Action) : Session :=
  match a with
  | NavigateUp p => navigateToPathAndUpdateQuickPick h s p
  | NavigateInto p => navigateToPathAndUpdateQuickPick h s p
  | CreateAndOpen p =>
      match writeFile h p with
      | Throw error => showError s ["Failed to create file: " ++ error]
      | Ok _ =>
          match openAndShow h p with
          | Throw error =>
              showError (recordWrite s p) ["Failed to create file: " ++ error]
          | Ok _ => showAndHide (recordWrite s p) p
          end
      end
  | Open p =>
      match openAndShow h p with
      | Throw _ => s (* the rejection is not caught; nothing else runs *)
      | Ok _ => showAndHide s p
      end
  end.

(** [selected] is [quickPick.selectedItems[0]]. *)
Definition onDidAccept (h : Host) (s : Session) (selected : option FileItem)
  : Session :=
  match selected with
  | Some item => perform h s (acceptAction h (currentPath s) item)
  | None => s
  end.

(** The [onDidChangeValue] handler, as the list it leaves in
    [quickPick.items]; [items] is the list found there. *)
Definition onDidChangeValue (h : Host) (currentPath : string)
  (items : list FileItem) (value : string) : list FileItem :=
  let currentItems :=
    filter (fun item => negb (truthy (isCreateFile item))) items in
  if value =? "" then currentItems
  else
    let hasMatchingItems :=
      existsb (fun item =>
                 let itemName := toLowerCase h (label item) in
                 let searchTerm := toLowerCase h value in
                 Js.includes itemName searchTerm) currentItems in
    if negb hasMatchingItems && negb (trim h value =? "")
    then currentItems ++ [createFileItem h currentPath value]
    else items.

(** The user edits the input box: the widget stores the text, then the
    handler runs. *)
Definition changeValue (h : Host) (s : Session) (v : string) : Session :=
  {| currentPath := currentPath s; title := title s;
     items := onDidChangeValue h (currentPath s) (items s) v;
     value := v; visible := visible s; errorMessages := errorMessages s;
     console := console s; written := written s; shown := shown s |}.

Definition onDidTriggerButton (h : Host) (s : Session) (tooltip : string)
  : Session :=
  if tooltip =? "Go Up"
  then navigateToPathAndUpdateQuickPick h s (dirname h (currentPath s))
  else s.

Definition showQuickPick (h : Host) (s : Session) : Session :=
  let (its, msgs) := getDirectoryItems h (currentPath s) in
  {| currentPath := currentPath s;
     title := titleOf h (currentPath s);
     items := its;
     value := "";
     visible := true;
     errorMessages := errorMessages s ++ msgs;
     console := console s;
     written := written s;
     shown := shown s |}.

Definition show (h : Host) (s : Session) : Session :=
  match activeTextEditor h with
  | Some fsPath => showQuickPick h (setCurrentPath s (dirname h fsPath))
  | None =>
      match workspaceFolders h with
      | Some (workspaceRoot :: _) => showQuickPick h (setCurrentPath s workspaceRoot)
      | _ => showError s ["No workspace or active file found"]
      end
  end.

Definition deactivate (s : Session) : Session := setCurrentPath s "".

(** The module as loaded: [let currentPath: string = ""], no QuickPick. *)
Definition loaded : Session :=
  {| currentPath := ""; title := ""; items := []; value := ""; visible := false;
     errorMessages := []; console := []; written := []; shown := [] |}.

(** What can happen to an open picker. *)
Inductive Event : Type :=
| Accept (selected : option FileItem)
| ChangeValue (v : string)
| TriggerButton (tooltip : string).

Definition handle (h : Host) (s : Session) (e : Event) : Session :=
  match e with
  | Accept selected => onDidAccept h s selected
  | ChangeValue v => changeValue h s v
  | TriggerButton tooltip => onDidTriggerButton h s tooltip
  end.

(** The user can only accept an item that the picker displays. *)
Definition possible (s : Session) (e : Event) : Prop :=
  match e with
  | Accept (Some item) => In item (items s)
  | _ => True
  end.

(** The states of a session: the command opens the picker, then events are
    handled one after the other, each handler running to completion. *)
Inductive Reachable (h : Host) : Session -> Prop :=
| reach_show : Reachable h (show h loaded)
| reach_handle s e :
    Reachable h s -> visible s = true -> possible s e ->
    Reachable h (handle h s e).

Definition run (h : Host) (s : Session) (events : list Event) : Session :=
  fold_left (handle h) events s.

(** ** Concrete hosts, for running the model

    The string methods are given on the ASCII range: [asciiLower] lowers
    [A]-[Z] only, [asciiTrim] removes blanks, tabs and line ends, and
    [codeUnitCompare] orders strings by their code units.  The file system is
    a table from directories to their children and a table of [stat]
    results. *)

Module Sample.

Definition lowerChar (c : ascii) : ascii :=
  let n := nat_of_ascii c in
  if (65 <=? n)%nat && (n <=? 90)%nat then ascii_of_nat (n + 32) else c.

Fixpoint asciiLower (s : string) : string :=
  match s with
  | EmptyString => EmptyString
  | String c r => String (lowerChar c) (asciiLower r)
  end.

Definition isBlank (c : ascii) : bool :=
  let n := nat_of_ascii c in
  (n =? 32)%nat || ((9 <=? n)%nat && (n <=? 13)%nat).

Fixpoint trimStart (s : string) : string :=
  match s with
  | EmptyString => EmptyString
  | String c r => if isBlank c then trimStart r else s
  end.

Fixpoint reverse (s acc : string) : string :=
  match s with
  | EmptyString => acc
  | String c r => reverse r (String c acc)
  end.

Definition asciiTrim (s : string) : string :=
  reverse (trimStart (reverse (trimStart s) "")) "".

Definition code (c : ascii) : Z := Z.of_nat (nat_of_ascii c).

Fixpoint codeUnitCompare (a b : string) : Z :=
  match a, b with
  | EmptyString, EmptyString => 0%Z
  | EmptyString, String _ _ => (-1)%Z
  | String _ _, EmptyString => 1%Z
  | String c a', String d b' =>
      if (code c <? code d)%Z then (-1)%Z
      else if (code d <? code c)%Z then 1%Z
      else codeUnitCompare a' b'
  end.

Fixpoint lookup {A : Type} (table : list (string * A)) (key : string) : option A :=
  match table with
  | [] => None
  | (k, v) :: rest => if k =? key then Some v else lookup rest key
  end.

Definition dir : Stats.t := Stats.mk true false.
Definition file : Stats.t := Stats.mk false true.

Definition posixHost (folders : option (list string)) (editor : option string)
  (children : list (string * list string)) (stats : list (string * Stats.t))
  : Host :=
  {| sep := Posix.sep;
     join := Posix.join;
     dirname := Posix.dirname;
     toLowerCase := asciiLower;
     trim := asciiTrim;
     localeCompare := codeUnitCompare;
     workspaceFolders := folders;
     activeTextEditor := editor;
     readdir := fun p =>
       match lookup children p with
       | Some names => Ok names
       | None => Throw "ENOENT: no such file or directory, scandir"
       end;
     stat := fun p =>
       match lookup stats p with
       | Some st => Ok st
       | None => Throw "ENOENT: no such file or directory, stat"
       end;
     writeFile := fun _ => Ok tt;
     openAndShow := fun _ => Ok tt |}.

(** The same host on a platform whose [path.sep] is the backslash; of the
    [path] module [getRelativePath] reads nothing but [sep]. *)
Definition withSep (h : Host) (separator : string) : Host :=
  {| sep := separator;
     join := join h;
     dirname := dirname h;
     toLowerCase := toLowerCase h;
     trim := trim h;
     localeCompare := localeCompare h;
     workspaceFolders := workspaceFolders h;
     activeTextEditor := activeTextEditor h;
     readdir := readdir h;
     stat := stat h;
     writeFile := writeFile h;
     openAndShow := openAndShow h |}.

(** A workspace [/ws] holding [README.md] and [src/] with two files. *)
Definition wsChildren : list (string * list string) :=
  [("/ws", ["src"; "README.md"]);
   ("/ws/src", ["zeta.ts"; "alpha.ts"]);
   ("/other", ["notes.txt"])].

Definition wsStats : list (string * Stats.t) :=
  [("/ws/src", dir); ("/ws/README.md", file);
   ("/ws/src/zeta.ts", file); ("/ws/src/alpha.ts", file);
   ("/other/notes.txt", file)].

Definition wsHost (editor : option string) : Host :=
  posixHost (Some ["/ws"]) editor wsChildren wsStats.

(** The items of the sorting test of the suite. *)
Definition mockItem (name : string) (isDir isF : bool) : FileItem :=
  {| label := name; description := None; uri := ""; isDirectory := isDir;
     isFile := isF; isCreateFile := None |}.

Definition mockItems : list FileItem :=
  [mockItem "zebra.txt" false true;
   mockItem "alpha/" true false;
   mockItem ".." true false;
   mockItem "beta/" true true;
   mockItem "apple.txt" false true].

(** A session opened with no active editor, at the workspace root. *)
Definition rootHost : Host := wsHost None.


(** A session opened from a file of [/ws/src], one opened from a file that
    is not in the workspace, and a listing with a child that cannot be
    statted. *)
Definition srcHost : Host := wsHost (Some "/ws/src/alpha.ts").

Definition outsideHost : Host := wsHost (Some "/other/notes.txt").

(** A Windows workspace: [path.sep] is the backslash. *)
Definition windowsHost : Host :=
  withSep (posixHost (Some ["C:\ws"]) None [] []) Js.backslash.

(** A workspace opened on the root directory of a POSIX file system. *)
Definition slashHost : Host := posixHost (Some ["/"]) None [] [].

Definition ghostHost : Host :=
  posixHost (Some ["/ws"]) None
    [("/ws/src", ["alpha.ts"; "ghost"; "zeta.ts"])]
    [("/ws/src/alpha.ts", file); ("/ws/src/zeta.ts", file)].

End Sample.

(** ** Vocabulary of the specification

    The specification speaks of an entry's kind; the code tells the kinds
    apart by where an item was built. *)

Inductive Kind : Type := ParentLink | CreateStub | Directory | File.

Inductive Entry (h : Host) (currentPath : string) : FileItem -> Kind -> Prop :=
| entry_parent :
    Entry h currentPath (goUpItem h currentPath) ParentLink
| entry_stub value :
    Entry h currentPath (createFileItem h currentPath value) CreateStub
| entry_directory file st :
    Stats.isDirectory st = true ->
    Entry h currentPath (childItem file (join h [currentPath; file]) st) Directory
| entry_file file st :
    Stats.isDirectory st = false ->
    file <> ".." ->
    Entry h currentPath (childItem file (join h [currentPath; file]) st) File.

Definition hasKind (h : Host) (currentPath : string) (item : FileItem) : Prop :=
  exists k, Entry h currentPath item k.

(** The action the specification assigns to each kind. *)
Definition actionOf (h : Host) (currentPath : string) (k : Kind) (item : FileItem)
  : Action :=
  match k with
  | ParentLink => NavigateUp (dirname h currentPath)
  | CreateStub => CreateAndOpen (uri item)
  | Directory => NavigateInto (uri item)
  | File => Open (uri item)
  end.

Definition isStub (item : FileItem) : bool := truthy (isCreateFile item).

(** The entries that are not create-file stubs. *)
Definition withoutStubs (entries : list FileItem) : list FileItem :=
  filter (fun item => negb (isStub item)) entries.

(** Case-insensitive containment of the query in an entry's name. *)
Definition nameContains (h : Host) (item : FileItem) (query : string) : bool :=
  Js.includes (toLowerCase h (label item)) (toLowerCase h query).

(** The [stat] of a child of [currentPath] throws. *)
Definition statFails (h : Host) (currentPath file : string) : Prop :=
  exists error, stat h (join h [currentPath; file]) = Throw error.

(** The order of the listing: the parent link first, then directories, then
    the rest, each group ascending by [localeCompare] of the labels. *)
Definition entryLe (h : Host) (a b : FileItem) : Prop :=
  label a = ".."
  \/ (label b <> ".."
      /\ ((isDirectory a = true /\ isDirectory b = false)
          \/ (isDirectory a = isDirectory b
              /\ (localeCompare h (label a) (label b) <= 0)%Z))).

(** Two hosts give [getDirectoryItems] the same inputs for a directory. *)
Definition sameListingInputs (h h' : Host) (currentPath : string) : Prop :=
  readdir h' currentPath = readdir h currentPath
  /\ (forall p, stat h' p = stat h p)
  /\ (forall args, join h' args = join h args)
  /\ dirname h' currentPath = dirname h currentPath
  /\ workspaceFolders h' = workspaceFolders h
  /\ (forall a b, localeCompare h' a b = localeCompare h a b).

(** What is assumed of the host's collation: swapping the arguments swaps
    the sign of the result, and the order is transitive. *)
Definition collationAntisymmetric (h : Host) : Prop :=
  forall a b, (localeCompare h a b < 0)%Z <-> (0 < localeCompare h b a)%Z.

Definition collationTransitive (h : Host) : Prop :=
  forall a b c,
    (localeCompare h a b <= 0)%Z -> (localeCompare h b c <= 0)%Z ->
    (localeCompare h a c <= 0)%Z.

(** The two steps of [getRelativePath] after the root is cut off. *)
Definition stripLeadingSeparator (h : Host) (relativePath : string) : string :=
  if Js.startsWith relativePath (sep h) || Js.startsWith relativePath Js.backslash
  then Js.substring relativePath 1
  else relativePath.

Definition withTrailingSlash (result : string) : string :=
  if negb (result =? "") && negb (Js.endsWith result "/")
  then result ++ "/"
  else result.

(** [path] lies at or under [root] on a POSIX file system: it is [root], or
    [root] followed by a separator and a remainder, or [root] already ends in
    a separator and the remainder follows directly. *)
Definition endsWithSlash (s : string) : Prop := exists s0, s = s0 ++ "/".

Inductive Under (root : string) : string -> Prop :=
| under_root : Under root root
| under_sep rest : Under root (root ++ "/" ++ rest)
| under_direct rest : endsWithSlash root -> Under root (root ++ rest).

(** The absolute POSIX path with the given segments, in normal form. *)
Definition render (segs : list string) : string :=
  "/" ++ String.concat "/" segs.

(** What an open picker displays: the title of the current directory, the
    listing of the current directory, and after it at most one create-file
    item, whose path is [join(currentPath, text)]. *)
Definition showsListing (h : Host) (s : Session) : Prop :=
  title s = titleOf h (currentPath s)
  /\ withoutStubs (items s) = fst (getDirectoryItems h (currentPath s))
  /\ (items s = withoutStubs (items s)
      \/ exists query,
           items s
           = (withoutStubs (items s)
              ++ [createFileItem h (currentPath s) query])%list).

(** An item that cannot lead out of [currentPath]: it is labelled [..], or
    it is a create-file item, or its path is that of a child of
    [currentPath]. *)
Definition navigable (h : Host) (currentPath : string) (item : FileItem) : Prop :=
  label item = ".."
  \/ isStub item = true
  \/ exists file, Posix.proper file /\ uri item = join h [currentPath; file].

(** The current directory is the root, given by its segments [rs], or a
    directory nested under it, and the displayed items cannot lead out of
    the current directory. *)
Definition nestedSession (h : Host) (rs : list string) (s : Session) : Prop :=
  (exists ns, Forall Posix.proper ns /\ currentPath s = render (rs ++ ns))
  /\ Forall (navigable h (currentPath s)) (items s).

(** [readdir] reports names: no slash in them, none empty, none [.] or
    [..]. *)
Definition properChildren (h : Host) : Prop :=
  forall dir files, readdir h dir = Ok files -> Forall Posix.proper files.

(** The part of this that does not depend on what the directory holds. *)
Definition showsTitleAndCreateItem (h : Host) (s : Session) : Prop :=
  title s = titleOf h (currentPath s)
  /\ (items s = withoutStubs (items s)
      \/ exists query,
           items s
           = (withoutStubs (items s)
              ++ [createFileItem h (currentPath s) query])%list).

(** The items a successful listing is made of, before sorting. *)
Definition goUpItems (h : Host) (currentPath : string) : list FileItem :=
  match workspaceFolders h with
  | Some (workspaceRoot :: _) =>
      if currentPath =? workspaceRoot then [] else [goUpItem h currentPath]
  | _ => []
  end.

Definition childItemOf (h : Host) (currentPath : string)
  (child : string * Stats.t) : FileItem :=
  childItem (fst child) (join h [currentPath; fst child]) (snd child).

(** * Properties *)

(** ** Code-unit string methods *)

Module JsFacts.
Import Js.

Lemma startsWith_append (p r : string) : startsWith (p ++ r) p = true.
Proof.
  induction p as [|c p IH]; simpl.
  - reflexivity.
  - now rewrite Ascii.eqb_refl, IH.
Qed.

Lemma startsWith_inv (p s : string) :
  startsWith s p = true -> exists r, s = p ++ r.
Proof.
  revert s; induction p as [|c p IH]; intros s H; simpl in *.
  - now exists s.
  - destruct s as [|d s]; [discriminate|].
    apply andb_true_iff in H as [Hc Hp].
    apply Ascii.eqb_eq in Hc; subst d.
    destruct (IH _ Hp) as [r ->].
    now exists r.
Qed.

Lemma startsWith_refl (s : string) : startsWith s s = true.
Proof.
  induction s as [|c s IH]; simpl; [reflexivity|].
  now rewrite Ascii.eqb_refl, IH.
Qed.

Lemma length_append (a b : string) :
  String.length (a ++ b) = String.length a + String.length b.
Proof.
  induction a as [|c a IH]; simpl; [reflexivity | now rewrite IH].
Qed.

Lemma startsWith_length (p s : string) :
  startsWith s p = true -> String.length p <= String.length s.
Proof.
  intros H; destruct (startsWith_inv _ _ H) as [r ->].
  rewrite length_append; lia.
Qed.

Lemma substring_append (p r : string) : substring (p ++ r) (String.length p) = r.
Proof.
  induction p as [|c p IH]; simpl; auto.
Qed.

Lemma substring_all (s : string) : substring s (String.length s) = "".
Proof.
  induction s as [|c s IH]; simpl; auto.
Qed.

Lemma append_empty_r (s : string) : s ++ "" = s.
Proof.
  induction s as [|c s IH]; simpl; [reflexivity | now rewrite IH].
Qed.

Lemma append_assoc (a b c : string) : (a ++ b) ++ c = a ++ (b ++ c).
Proof.
  induction a as [|x a IH]; simpl; [reflexivity | now rewrite IH].
Qed.

Lemma startsWith_empty (p : string) : startsWith "" p = true -> p = "".
Proof.
  destruct p; simpl; [reflexivity | discriminate].
Qed.

End JsFacts.

(** ** Listing a directory *)

Section Listing.
Variable h : Host.
Variable cur : string.

(** The loop stops at the first child whose [stat] throws, whatever was
    collected before. *)
Lemma statLoop_throws (files : list string) :
  Exists (statFails h cur) files ->
  forall collected, exists file error,
    In file files /\ stat h (join h [cur; file]) = Throw error
    /\ statLoop h cur files collected = Throw error.
Proof.
  induction files as [|f files IH]; intros Hex collected.
  - inversion Hex.
  - simpl. destruct (stat h (join h [cur; f])) as [st|e] eqn:Hst.
    + assert (Hrest : Exists (statFails h cur) files).
      { inversion Hex as [? ? [e He]|]; subst; [congruence | assumption]. }
      destruct (IH Hrest (collected ++ [childItem f (join h [cur; f]) st])%list)
        as (file & error & Hin & Hthrow & Hloop).
      exists file, error. simpl. auto.
    + exists f, e. simpl. auto.
Qed.

Lemma statLoop_ok (files : list string) :
  forall collected items,
    statLoop h cur files collected = Ok items ->
    Forall (fun file => ~ statFails h cur file) files.
Proof.
  induction files as [|f files IH]; intros collected items Hok.
  - constructor.
  - simpl in Hok. destruct (stat h (join h [cur; f])) as [st|e] eqn:Hst.
    + constructor.
      * intros [e He]. congruence.
      * eapply IH; eassumption.
    + discriminate.
Qed.

End Listing.

(** C10.  When the directory can be read but the [stat] of one of its
    children throws, [getDirectoryItems] returns the empty list and shows one
    message built from that error; nothing collected before the failure is
    returned, and the outcome is the one a failing [readdir] with the same
    error gives. *)
Theorem stat_failure_aborts_listing (h : Host) (cur : string) (files : list string) :
  readdir h cur = Ok files ->
  Exists (statFails h cur) files ->
  exists file error,
    In file files
    /\ stat h (join h [cur; file]) = Throw error
    /\ getDirectoryItems h cur = ([], ["Error reading directory: " ++ error])
    /\ (forall h' cur', readdir h' cur' = Throw error ->
          getDirectoryItems h' cur' = getDirectoryItems h cur).
Proof.
  intros Hread Hex.
  unfold getDirectoryItems, tryDirectoryItems. rewrite Hread. simpl.
  match goal with
  | |- context [statLoop h cur files ?c] =>
      destruct (statLoop_throws h cur files Hex c)
        as (file & error & Hin & Hstat & Hloop)
  end.
  exists file, error. rewrite Hloop. simpl.
  repeat split; auto.
  intros h' cur' Hread'.
  unfold getDirectoryItems, tryDirectoryItems. now rewrite Hread'.
Qed.

Lemma stat_failure_aborts_listing_witness :
  exists file error,
    In file ["alpha.ts"; "ghost"; "zeta.ts"]
    /\ stat Sample.ghostHost (join Sample.ghostHost ["/ws/src"; file]) = Throw error
    /\ getDirectoryItems Sample.ghostHost "/ws/src"
       = ([], ["Error reading directory: " ++ error])
    /\ (forall h' cur', readdir h' cur' = Throw error ->
          getDirectoryItems h' cur' = getDirectoryItems Sample.ghostHost "/ws/src").
Proof.
  apply (stat_failure_aborts_listing Sample.ghostHost "/ws/src"
           ["alpha.ts"; "ghost"; "zeta.ts"]).
  - reflexivity.
  - apply Exists_cons_tl, Exists_cons_hd.
    exists "ENOENT: no such file or directory, stat". reflexivity.
Defined.

(** ** Navigation *)

(** C9.  A target that passes the boundary test becomes [currentPath]; the
    input box is cleared, the items are those of [getDirectoryItems] for the
    new directory, and the title is the marker followed by the root-relative
    form of the new directory.  Messages of the listing are appended; the
    rest of the session is untouched. *)
Theorem accepted_navigation_updates_session (h : Host) (s : Session)
  (newPath : string) :
  aboveWorkspaceRoot h newPath = false ->
  let s' := navigateToPathAndUpdateQuickPick h s newPath in
  currentPath s' = newPath
  /\ value s' = ""
  /\ items s' = fst (getDirectoryItems h newPath)
  /\ title s' = ">>> " ++ getRelativePath h newPath
  /\ errorMessages s' = (errorMessages s ++ snd (getDirectoryItems h newPath))%list
  /\ visible s' = visible s
  /\ console s' = console s.
Proof.
  intros Hok. unfold navigateToPathAndUpdateQuickPick. rewrite Hok.
  destruct (getDirectoryItems h newPath) as [newItems msgs]. simpl.
  repeat split; reflexivity.
Qed.

Lemma accepted_navigation_updates_session_witness :
  aboveWorkspaceRoot Sample.srcHost "/ws" = false
  /\ value (changeValue Sample.srcHost (show Sample.srcHost loaded) "zz") = "zz"
  /\ currentPath
       (navigateToPathAndUpdateQuickPick Sample.srcHost
          (changeValue Sample.srcHost (show Sample.srcHost loaded) "zz") "/ws")
     = "/ws"
  /\ value
       (navigateToPathAndUpdateQuickPick Sample.srcHost
          (changeValue Sample.srcHost (show Sample.srcHost loaded) "zz") "/ws")
     = ""
  /\ map label
       (items
          (navigateToPathAndUpdateQuickPick Sample.srcHost
             (changeValue Sample.srcHost (show Sample.srcHost loaded) "zz") "/ws"))
     = ["src/"; "README.md"]
  /\ title
       (navigateToPathAndUpdateQuickPick Sample.srcHost
          (changeValue Sample.srcHost (show Sample.srcHost loaded) "zz") "/ws")
     = ">>> ".
Proof.
  destruct (accepted_navigation_updates_session Sample.srcHost
              (changeValue Sample.srcHost (show Sample.srcHost loaded) "zz")
              "/ws" eq_refl)
    as (Hcur & Hval & Hitems & Htitle & _).
  split; [reflexivity|]. split; [reflexivity|].
  rewrite Hcur, Hval, Hitems, Htitle.
  repeat split; reflexivity.
Defined.

(** ** Accepting an entry *)

Lemma directory_label_not_parent (file : string) : file ++ "/" <> "..".
Proof.
  destruct file as [|a [|b [|c r]]]; simpl; discriminate.
Qed.

Lemma createLabel_not_parent (value : string) :
  (createLabel value =? "..") = false.
Proof. reflexivity. Qed.

Lemma childItem_label_file (file fullPath : string) (st : Stats.t) :
  Stats.isDirectory st = false -> label (childItem file fullPath st) = file.
Proof.
  intros Hd. unfold childItem; simpl. rewrite Hd. apply JsFacts.append_empty_r.
Qed.

Lemma childItem_label_directory (file fullPath : string) (st : Stats.t) :
  Stats.isDirectory st = true -> label (childItem file fullPath st) = file ++ "/".
Proof.
  intros Hd. unfold childItem; simpl. now rewrite Hd.
Qed.

(** An item has at most one kind. *)
Lemma Entry_kind_unique (h : Host) (cur : string) (item : FileItem) (k k' : Kind) :
  Entry h cur item k -> Entry h cur item k' -> k = k'.
Proof.
  intros H H'.
  destruct H as [|v|f st Hd|f st Hd Hf].
  - remember (goUpItem h cur) as it eqn:E.
    destruct H' as [|v'|f' st' Hd'|f' st' Hd' Hf']; try reflexivity.
    + discriminate E.
    + apply (f_equal label) in E.
      rewrite childItem_label_directory in E by assumption.
      simpl in E. now apply directory_label_not_parent in E.
    + apply (f_equal label) in E.
      rewrite childItem_label_file in E by assumption. simpl in E. congruence.
  - remember (createFileItem h cur v) as it eqn:E.
    destruct H' as [|v'|f' st' Hd'|f' st' Hd' Hf']; try reflexivity;
      discriminate E.
  - remember (childItem f (join h [cur; f]) st) as it eqn:E.
    destruct H' as [|v'|f' st' Hd'|f' st' Hd' Hf']; try reflexivity.
    + apply (f_equal label) in E.
      rewrite childItem_label_directory in E by assumption.
      simpl in E. symmetry in E. now apply directory_label_not_parent in E.
    + discriminate E.
    + apply (f_equal isDirectory) in E. simpl in E. congruence.
  - remember (childItem f (join h [cur; f]) st) as it eqn:E.
    destruct H' as [|v'|f' st' Hd'|f' st' Hd' Hf']; try reflexivity.
    + apply (f_equal label) in E.
      rewrite childItem_label_file in E by assumption. simpl in E. congruence.
    + discriminate E.
    + apply (f_equal isDirectory) in E. simpl in E. congruence.
Qed.

(** C5.  The branch that [onDidAccept] takes for an entry is the action of
    its kind: the parent link navigates to the parent of [currentPath], a
    create-file stub creates and opens its path, a directory is navigated
    into, a file is opened; and an entry has no second kind. *)
Theorem accepted_entry_action (h : Host) (cur : string) (item : FileItem) (k : Kind) :
  Entry h cur item k ->
  acceptAction h cur item = actionOf h cur k item
  /\ (forall k', Entry h cur item k' -> k' = k).
Proof.
  intros H. split.
  - destruct H as [|v|f st Hd|f st Hd Hf]; unfold acceptAction.
    + reflexivity.
    + reflexivity.
    + rewrite childItem_label_directory by assumption.
      destruct (String.eqb_spec (f ++ "/") "..") as [E|_].
      * now apply directory_label_not_parent in E.
      * simpl. now rewrite Hd.
    + rewrite childItem_label_file by assumption.
      destruct (String.eqb_spec f "..") as [E|_]; [contradiction|].
      simpl. now rewrite Hd.
  - intros k' H'. eapply Entry_kind_unique; eassumption.
Qed.

Lemma accepted_entry_action_witness :
  Entry Sample.rootHost "/ws"
    (childItem "src" (join Sample.rootHost ["/ws"; "src"]) Sample.dir) Directory
  /\ acceptAction Sample.rootHost "/ws"
       (childItem "src" (join Sample.rootHost ["/ws"; "src"]) Sample.dir)
     = NavigateInto "/ws/src".
Proof.
  assert (E : Entry Sample.rootHost "/ws"
                (childItem "src" (join Sample.rootHost ["/ws"; "src"]) Sample.dir)
                Directory) by (apply entry_directory; reflexivity).
  split; [exact E|].
  exact (proj1 (accepted_entry_action Sample.rootHost "/ws" _ Directory E)).
Defined.

(** ** Typing a query *)

Section Query.
Variable h : Host.
Variable cur : string.

Lemma withoutStubs_id (entries : list FileItem) :
  Forall (fun e => isStub e = false) entries -> withoutStubs entries = entries.
Proof.
  induction 1 as [|e entries He _ IH]; simpl; [reflexivity|].
  now rewrite He, IH.
Qed.

Lemma withoutStubs_no_stub (entries : list FileItem) :
  Forall (fun e => isStub e = false) (withoutStubs entries).
Proof.
  apply Forall_forall. intros e He.
  apply filter_In in He as [_ He]. now apply negb_true_iff in He.
Qed.

Lemma withoutStubs_idempotent (entries : list FileItem) :
  withoutStubs (withoutStubs entries) = withoutStubs entries.
Proof. apply withoutStubs_id, withoutStubs_no_stub. Qed.

(** The handler, in the vocabulary above. *)
Lemma onDidChangeValue_unfold (entries : list FileItem) (query : string) :
  onDidChangeValue h cur entries query
  = if query =? "" then withoutStubs entries
    else if negb (existsb (fun item => nameContains h item query)
                    (withoutStubs entries))
            && negb (trim h query =? "")
         then (withoutStubs entries ++ [createFileItem h cur query])%list
         else entries.
Proof. reflexivity. Qed.

(** [hasMatchingItems] looks at the entries that are not stubs. *)
Lemma hasMatchingItems_false (entries : list FileItem) (query : string) :
  (forall e, In e entries -> isStub e = false -> nameContains h e query = false) ->
  existsb (fun item => nameContains h item query) (withoutStubs entries) = false.
Proof.
  intros Hno.
  destruct (existsb _ (withoutStubs entries)) eqn:E; [|reflexivity].
  apply existsb_exists in E as (e & Hin & Hm).
  apply filter_In in Hin as [Hin Hs]. apply negb_true_iff in Hs.
  specialize (Hno e Hin Hs). congruence.
Qed.


Lemma createFileItem_fields (query : string) :
  label (createFileItem h cur query) = createLabel query
  /\ uri (createFileItem h cur query) = join h [cur; query]
  /\ isStub (createFileItem h cur query) = true.
Proof. repeat split. Qed.

End Query.









(** ** The workspace boundary *)

Section Boundary.
Variable h : Host.
Variables (root : string) (rest : list string).
Hypothesis Hws : workspaceFolders h = Some (root :: rest).

(** The length test adds nothing to the prefix test. *)
Lemma aboveWorkspaceRoot_prefix (newPath : string) :
  aboveWorkspaceRoot h newPath = negb (Js.startsWith newPath root).
Proof.
  unfold aboveWorkspaceRoot. rewrite Hws.
  destruct (Js.startsWith newPath root) eqn:Hp; simpl.
  - apply JsFacts.startsWith_length in Hp.
    rewrite orb_false_r. apply Nat.ltb_ge. exact Hp.
  - apply orb_true_r.
Qed.

Lemma navigate_currentPath (s : Session) (newPath : string) :
  currentPath (navigateToPathAndUpdateQuickPick h s newPath)
  = if aboveWorkspaceRoot h newPath then currentPath s else newPath.
Proof.
  unfold navigateToPathAndUpdateQuickPick.
  destruct (aboveWorkspaceRoot h newPath); [reflexivity|].
  now destruct (getDirectoryItems h newPath).
Qed.

Lemma showQuickPick_currentPath (s : Session) :
  currentPath (showQuickPick h s) = currentPath s.
Proof.
  unfold showQuickPick. now destruct (getDirectoryItems h (currentPath s)).
Qed.

End Boundary.

(** ** The order of a listing *)

Section Order.
Variable h : Host.
Hypothesis Hanti : collationAntisymmetric h.
Hypothesis Htrans : collationTransitive h.

Lemma collation_total (a b : string) :
  (localeCompare h a b <= 0)%Z \/ (localeCompare h b a <= 0)%Z.
Proof.
  destruct (Z_le_gt_dec (localeCompare h a b) 0) as [Hle|Hgt]; [now left|].
  right. assert (localeCompare h b a < 0)%Z by (apply Hanti; lia). lia.
Qed.

(** The comparison function decides [entryLe]. *)
Lemma compareItems_entryLe (a b : FileItem) :
  (compareItems h a b <= 0)%Z <-> entryLe h a b.
Proof.
  unfold compareItems, entryLe.
  destruct (String.eqb_spec (label a) "..") as [Ea|Ea].
  { split; [now left | lia]. }
  destruct (String.eqb_spec (label b) "..") as [Eb|Eb].
  { split; [lia | intros [?|[? _]]; contradiction]. }
  destruct (isDirectory a), (isDirectory b); simpl.
  - split.
    + intros Hc. right. split; [exact Eb|]. right. now split.
    + intros [?|[_ [[_ ?]|[_ ?]]]]; [contradiction | discriminate | assumption].
  - split; [|lia]. intros _. right. split; [exact Eb|]. left. now split.
  - split; [lia|].
    intros [?|[_ [[? _]|[? _]]]]; [contradiction | discriminate | discriminate].
  - split.
    + intros Hc. right. split; [exact Eb|]. right. now split.
    + intros [?|[_ [[? _]|[_ ?]]]]; [contradiction | discriminate | assumption].
Qed.

Lemma entryLe_total (a b : FileItem) : entryLe h a b \/ entryLe h b a.
Proof.
  unfold entryLe.
  destruct (String.eqb_spec (label a) "..") as [Ea|Ea]; [now left; left|].
  destruct (String.eqb_spec (label b) "..") as [Eb|Eb]; [now right; left|].
  destruct (isDirectory a) eqn:Da, (isDirectory b) eqn:Db.
  - destruct (collation_total (label a) (label b)).
    + left. right. split; [exact Eb|]. right. now split.
    + right. right. split; [exact Ea|]. right. now split.
  - left. right. split; [exact Eb|]. left. now split.
  - right. right. split; [exact Ea|]. left. now split.
  - destruct (collation_total (label a) (label b)).
    + left. right. split; [exact Eb|]. right. now split.
    + right. right. split; [exact Ea|]. right. now split.
Qed.

Lemma entryLe_trans (a b c : FileItem) :
  entryLe h a b -> entryLe h b c -> entryLe h a c.
Proof.
  unfold entryLe.
  intros [Ha|[Hb Hab]] Hbc; [now left|].
  destruct Hbc as [Hb'|[Hc Hbc]]; [contradiction|].
  right. split; [exact Hc|].
  destruct Hab as [[Da Db]|[Dab Lab]], Hbc as [[Db' Dc]|[Dbc Lbc]].
  - congruence.
  - left. split; congruence.
  - left. split; congruence.
  - right. split; [congruence|]. eapply Htrans; eassumption.
Qed.

Lemma insertItem_Forall (P : FileItem -> Prop) (x : FileItem) (l : list FileItem) :
  P x -> Forall P l -> Forall P (insertItem (compareItems h) x l).
Proof.
  intros Hx Hl. induction Hl as [|y l Hy Hl IH]; simpl.
  - now constructor.
  - destruct (compareItems h x y <=? 0)%Z; repeat constructor; auto.
Qed.

Lemma insertItem_sorted (x : FileItem) (l : list FileItem) :
  StronglySorted (entryLe h) l ->
  StronglySorted (entryLe h) (insertItem (compareItems h) x l).
Proof.
  induction 1 as [|y l Hs IH Hy]; simpl.
  - repeat constructor.
  - destruct (Z.leb_spec (compareItems h x y) 0) as [Hle|Hgt].
    + apply compareItems_entryLe in Hle.
      constructor; [now constructor|].
      constructor; [exact Hle|].
      eapply Forall_impl; [|exact Hy].
      intros z Hz. eapply entryLe_trans; eassumption.
    + constructor; [exact IH|].
      apply insertItem_Forall; [|exact Hy].
      destruct (entryLe_total x y) as [Hxy|Hyx]; [|exact Hyx].
      apply compareItems_entryLe in Hxy. lia.
Qed.

Lemma sort_sorted (l : list FileItem) :
  StronglySorted (entryLe h) (sort (compareItems h) l).
Proof.
  induction l as [|x l IH]; simpl.
  - constructor.
  - now apply insertItem_sorted.
Qed.

End Order.

Lemma insertItem_permutation (compareFn : FileItem -> FileItem -> Z)
  (x : FileItem) (l : list FileItem) :
  Permutation (x :: l) (insertItem compareFn x l).
Proof.
  induction l as [|y l IH]; simpl.
  - apply Permutation_refl.
  - destruct (compareFn x y <=? 0)%Z.
    + apply Permutation_refl.
    + eapply perm_trans; [apply perm_swap|]. now apply perm_skip.
Qed.

Lemma sort_permutation (compareFn : FileItem -> FileItem -> Z) (l : list FileItem) :
  Permutation l (sort compareFn l).
Proof.
  induction l as [|x l IH]; simpl.
  - apply Permutation_refl.
  - eapply perm_trans; [|apply insertItem_permutation]. now apply perm_skip.
Qed.

Lemma getDirectoryItems_sorted_form (h : Host) (cur : string) :
  fst (getDirectoryItems h cur) = []
  \/ exists built, fst (getDirectoryItems h cur) = sort (compareItems h) built.
Proof.
  unfold getDirectoryItems, tryDirectoryItems.
  destruct (readdir h cur) as [files|e]; simpl; [|now left].
  match goal with
  | |- context [statLoop h cur files ?c] => destruct (statLoop h cur files c)
  end; simpl; [|now left].
  right. eauto.
Qed.

(** The listing is determined by what the host reports. *)
Lemma sort_ext (f g : FileItem -> FileItem -> Z) (l : list FileItem) :
  (forall a b, f a b = g a b) -> sort f l = sort g l.
Proof.
  intros Hfg. induction l as [|x l IH]; simpl; [reflexivity|].
  rewrite IH. generalize (sort g l). intros sorted.
  induction sorted as [|y sorted IHs]; simpl; [reflexivity|].
  now rewrite Hfg, IHs.
Qed.

Lemma statLoop_ext (h h' : Host) (cur : string) (files : list string) :
  (forall p, stat h' p = stat h p) ->
  (forall args, join h' args = join h args) ->
  forall collected,
    statLoop h' cur files collected = statLoop h cur files collected.
Proof.
  intros Hstat Hjoin. induction files as [|f files IH]; intros collected; simpl.
  - reflexivity.
  - rewrite Hjoin, Hstat. destruct (stat h (join h [cur; f])); simpl; auto.
Qed.

Lemma getDirectoryItems_deterministic (h h' : Host) (cur : string) :
  sameListingInputs h h' cur ->
  getDirectoryItems h' cur = getDirectoryItems h cur.
Proof.
  intros (Hread & Hstat & Hjoin & Hdir & Hws & Hcmp).
  unfold getDirectoryItems, tryDirectoryItems, goUpItem.
  rewrite Hread, Hws, Hdir.
  destruct (readdir h cur) as [files|e]; simpl; [|reflexivity].
  rewrite (statLoop_ext h h' cur files Hstat Hjoin).
  match goal with
  | |- context [statLoop h cur files ?c] =>
      destruct (statLoop h cur files c) as [built|e]
  end; simpl; [|reflexivity].
  rewrite (sort_ext (compareItems h') (compareItems h)); [reflexivity|].
  intros x y. unfold compareItems. now rewrite Hcmp.
Qed.

Module SampleFacts.
Import Sample.

Lemma codeUnitCompare_antisym (a b : string) :
  (codeUnitCompare a b < 0)%Z <-> (0 < codeUnitCompare b a)%Z.
Proof.
  revert b; induction a as [|c a IH]; intros [|d b]; simpl; try lia.
  destruct (Z.ltb_spec (code c) (code d)), (Z.ltb_spec (code d) (code c));
    try lia.
  apply IH.
Qed.

Lemma codeUnitCompare_trans (a b c : string) :
  (codeUnitCompare a b <= 0)%Z -> (codeUnitCompare b c <= 0)%Z ->
  (codeUnitCompare a c <= 0)%Z.
Proof.
  revert b c; induction a as [|x a IH]; intros [|y b] [|z c]; simpl; try lia.
  destruct (Z.ltb_spec (code x) (code y)), (Z.ltb_spec (code y) (code x)),
    (Z.ltb_spec (code y) (code z)), (Z.ltb_spec (code z) (code y)),
    (Z.ltb_spec (code x) (code z)), (Z.ltb_spec (code z) (code x));
    try lia.
  apply IH.
Qed.

Lemma rootHost_antisymmetric : collationAntisymmetric rootHost.
Proof. intros a b. apply codeUnitCompare_antisym. Qed.

Lemma rootHost_transitive : collationTransitive rootHost.
Proof. intros a b c. apply codeUnitCompare_trans. Qed.

End SampleFacts.

(** C3.  For a collation that is antisymmetric and transitive, every
    listing is in the order [entryLe]: the parent link comes before
    everything else, directories come before the other entries, and within
    each of the two groups the labels ascend by [localeCompare]; sorting
    rearranges the items and loses none; and the five items of the suite's
    sorting test come out as [..], [alpha/], [beta/], [apple.txt],
    [zebra.txt] whenever the collation puts [alpha/] before [beta/] and
    [apple.txt] before [zebra.txt].  The listing is determined by its inputs:
    two hosts that report the same children, the same [stat] results and the
    same comparisons produce the same list. *)
Theorem listing_is_sorted (h : Host) :
  collationAntisymmetric h ->
  collationTransitive h ->
  (localeCompare h "alpha/" "beta/" < 0)%Z ->
  (localeCompare h "apple.txt" "zebra.txt" < 0)%Z ->
  (forall cur, StronglySorted (entryLe h) (fst (getDirectoryItems h cur)))
  /\ (forall built,
        StronglySorted (entryLe h) (sort (compareItems h) built)
        /\ Permutation built (sort (compareItems h) built))
  /\ map label (sort (compareItems h) Sample.mockItems)
     = [".."; "alpha/"; "beta/"; "apple.txt"; "zebra.txt"]
  /\ (forall h' cur, sameListingInputs h h' cur ->
        getDirectoryItems h' cur = getDirectoryItems h cur).
Proof.
  intros Hanti Htrans Hab Haz. repeat split.
  - intros cur.
    destruct (getDirectoryItems_sorted_form h cur) as [->|[built ->]].
    + constructor.
    + now apply sort_sorted.
  - now apply sort_sorted.
  - apply sort_permutation.
  - assert (H1 : (localeCompare h "alpha/" "beta/" <=? 0)%Z = true)
      by (apply Z.leb_le; lia).
    assert (H2 : (localeCompare h "zebra.txt" "apple.txt" <=? 0)%Z = false)
      by (apply Z.leb_gt; now apply Hanti).
    unfold sort, Sample.mockItems, Sample.mockItem. simpl fold_right.
    unfold compareItems; simpl. rewrite H1. simpl. now rewrite H2.
  - intros h' cur. apply getDirectoryItems_deterministic.
Qed.

Lemma listing_is_sorted_witness :
  collationAntisymmetric Sample.rootHost
  /\ collationTransitive Sample.rootHost
  /\ map label (fst (getDirectoryItems Sample.srcHost "/ws/src"))
     = [".."; "alpha.ts"; "zeta.ts"]
  /\ StronglySorted (entryLe Sample.rootHost)
       (fst (getDirectoryItems Sample.rootHost "/ws"))
  /\ map label (sort (compareItems Sample.rootHost) Sample.mockItems)
     = [".."; "alpha/"; "beta/"; "apple.txt"; "zebra.txt"].
Proof.
  destruct (listing_is_sorted Sample.rootHost
              SampleFacts.rootHost_antisymmetric SampleFacts.rootHost_transitive
              eq_refl eq_refl) as (Hsorted & _ & Hmock & _).
  split; [exact SampleFacts.rootHost_antisymmetric|].
  split; [exact SampleFacts.rootHost_transitive|].
  split; [reflexivity|].
  split; [apply Hsorted | exact Hmock].
Defined.

(** ** The root-relative display path *)

Section RelativePath.
Variable h : Host.
Variables (root : string) (rest : list string).
Hypothesis Hws : workspaceFolders h = Some (root :: rest).

(** A path that does not start with the root is returned as it is. *)
Lemma getRelativePath_outside (fullPath : string) :
  Js.startsWith fullPath root = false -> getRelativePath h fullPath = fullPath.
Proof.
  intros Hp. unfold getRelativePath. now rewrite Hws, Hp.
Qed.

(** A path that starts with the root yields what follows the root, without
    one leading separator (of either convention) and closed by a slash
    unless it is empty or already ends with one. *)
Lemma getRelativePath_inside (remainder : string) :
  getRelativePath h (root ++ remainder)
  = withTrailingSlash (stripLeadingSeparator h remainder).
Proof.
  unfold getRelativePath. rewrite Hws, JsFacts.startsWith_append.
  now rewrite JsFacts.substring_append.
Qed.

Lemma getRelativePath_root : getRelativePath h root = "".
Proof.
  rewrite <- (JsFacts.append_empty_r root) at 1.
  rewrite getRelativePath_inside.
  unfold stripLeadingSeparator.
  now destruct (Js.startsWith "" (sep h) || Js.startsWith "" Js.backslash).
Qed.

End RelativePath.

Lemma withTrailingSlash_cases (result : string) :
  (result = "" /\ withTrailingSlash result = "")
  \/ (result <> "" /\ (withTrailingSlash result = result
                       \/ withTrailingSlash result = result ++ "/")).
Proof.
  unfold withTrailingSlash.
  destruct (String.eqb_spec result "") as [->|Hne].
  - now left.
  - right. split; [exact Hne|]. simpl.
    destruct (Js.endsWith result "/"); simpl; auto.
Qed.

(** C8, at the input on which the code departs from it.  On a platform
    whose separator is the backslash, with the workspace at [C:\ws], the
    path of the nested directory [a\b] is displayed with the backslash
    between its segments left in place; only the closing slash is a forward
    slash. *)
Theorem relative_path_keeps_inner_backslash :
  sep Sample.windowsHost = Js.backslash
  /\ getRelativePath Sample.windowsHost "C:\ws\a\b" = "a\b/"
  /\ Js.includes (getRelativePath Sample.windowsHost "C:\ws\a\b") Js.backslash
     = true.
Proof. repeat split. Qed.

(** ** POSIX paths *)

Module PosixFacts.
Import Posix.

Lemma split_not_nil (s : string) : split s <> [].
Proof.
  destruct s as [|c r]; simpl; [discriminate|].
  destruct (Ascii.eqb c slash); [discriminate|].
  destruct (split r); discriminate.
Qed.

Lemma split_append_slash (a b : string) :
  split (a ++ String slash b) = (split a ++ split b)%list.
Proof.
  induction a as [|c a IH]; simpl.
  - reflexivity.
  - destruct (Ascii.eqb c slash).
    + now rewrite IH.
    + rewrite IH. destruct (split a) as [|seg segs] eqn:E.
      * now apply split_not_nil in E.
      * reflexivity.
Qed.

Lemma split_no_slash (s : string) : hasSlash s = false -> split s = [s].
Proof.
  induction s as [|c r IH]; simpl; intros H.
  - reflexivity.
  - apply orb_false_iff in H as [Hc Hr]. rewrite Hc, (IH Hr). reflexivity.
Qed.

Lemma split_segments_no_slash (s : string) :
  Forall (fun seg => hasSlash seg = false) (split s).
Proof.
  induction s as [|c r IH]; simpl.
  - repeat constructor.
  - destruct (Ascii.eqb c slash) eqn:Hc.
    + constructor; [reflexivity | exact IH].
    + destruct (split r) as [|seg segs]; [repeat constructor; simpl; now rewrite Hc|].
      inversion IH as [|? ? Hseg Hsegs]; subst.
      constructor; [simpl; now rewrite Hc, Hseg | exact Hsegs].
Qed.

Lemma split_concat (segs : list string) :
  segs <> [] ->
  Forall (fun seg => hasSlash seg = false) segs ->
  split (String.concat "/" segs) = segs.
Proof.
  induction segs as [|x [|y t] IH]; intros Hne Hall.
  - contradiction.
  - simpl. inversion Hall; subst. now apply split_no_slash.
  - change (String.concat "/" (x :: y :: t))
      with (x ++ String slash (String.concat "/" (y :: t))).
    rewrite split_append_slash.
    inversion Hall as [|? ? Hx Hrest]; subst.
    rewrite (split_no_slash x Hx), IH; [reflexivity | discriminate | exact Hrest].
Qed.

Lemma names_append_slash (a b : string) :
  names (a ++ String slash b) = (names a ++ names b)%list.
Proof.
  unfold names. now rewrite split_append_slash, filter_app.
Qed.

Lemma names_empty : names "" = [].
Proof. reflexivity. Qed.

Lemma names_trailing_slash (a : string) : names (a ++ "/") = names a.
Proof.
  change (a ++ "/") with (a ++ String slash "").
  rewrite names_append_slash, names_empty. apply app_nil_r.
Qed.

(** Empty segments do not take part in the resolution. *)
Lemma fold_pushSegment_names (allowAboveRoot : bool) (segs : list string) :
  forall res,
    fold_left (pushSegment allowAboveRoot) segs res
    = fold_left (pushSegment allowAboveRoot) (filter nonEmpty segs) res.
Proof.
  induction segs as [|seg segs IH]; intros res; simpl.
  - reflexivity.
  - unfold nonEmpty at 1. destruct (String.eqb_spec seg "") as [->|Hne]; simpl.
    + apply IH.
    + apply IH.
Qed.

Lemma segments_names (allowAboveRoot : bool) (path : string) :
  segments allowAboveRoot path
  = fold_left (pushSegment allowAboveRoot) (names path) [].
Proof. apply fold_pushSegment_names. Qed.

Lemma pushSegment_proper (allowAboveRoot : bool) (res : list string) (seg : string) :
  proper seg -> pushSegment allowAboveRoot res seg = seg :: res.
Proof.
  intros (_ & H0 & H1 & H2). unfold pushSegment.
  destruct (String.eqb_spec seg "") as [?|_]; [contradiction|].
  destruct (String.eqb_spec seg ".") as [?|_]; [contradiction|].
  destruct (String.eqb_spec seg "..") as [?|_]; [contradiction|].
  reflexivity.
Qed.

Lemma fold_pushSegment_proper (allowAboveRoot : bool) (segs : list string) :
  Forall proper segs ->
  forall res,
    fold_left (pushSegment allowAboveRoot) segs res = (rev segs ++ res)%list.
Proof.
  induction 1 as [|seg segs Hseg _ IH]; intros res; simpl.
  - reflexivity.
  - rewrite (pushSegment_proper _ _ _ Hseg), IH, <- app_assoc. reflexivity.
Qed.

(** Resolving an absolute path keeps proper segments only. *)
Lemma fold_pushSegment_keeps_proper (segs : list string) :
  Forall (fun seg => hasSlash seg = false) segs ->
  forall res, Forall proper res ->
              Forall proper (fold_left (pushSegment false) segs res).
Proof.
  induction 1 as [|seg segs Hseg _ IH]; intros res Hres; simpl.
  - exact Hres.
  - apply IH. unfold pushSegment.
    destruct (String.eqb_spec seg "") as [?|H0]; [exact Hres|].
    destruct (String.eqb_spec seg ".") as [?|H1]; [exact Hres|]. simpl.
    destruct (String.eqb_spec seg "..") as [?|H2].
    + destruct res as [|top below]; [constructor|].
      destruct (top =? ".."); [exact Hres|].
      now inversion Hres.
    + constructor; [|exact Hres]. repeat split; assumption.
Qed.

Lemma segments_absolute_proper (path : string) :
  Forall proper (segments false path).
Proof.
  apply fold_pushSegment_keeps_proper; [apply split_segments_no_slash | constructor].
Qed.

End PosixFacts.

Module NormalizeFacts.
Import Posix PosixFacts.

Lemma proper_no_slash (segs : list string) :
  Forall proper segs -> Forall (fun seg => hasSlash seg = false) segs.
Proof. apply Forall_impl. now intros seg (H & _). Qed.

Lemma proper_nonEmpty (segs : list string) :
  Forall proper segs -> filter nonEmpty segs = segs.
Proof.
  induction 1 as [|seg segs (_ & H0 & _) _ IH]; simpl; [reflexivity|].
  unfold nonEmpty at 1.
  destruct (String.eqb_spec seg "") as [?|_]; [contradiction|].
  simpl. now rewrite IH.
Qed.

Lemma concat_not_empty (segs : list string) :
  segs <> [] -> Forall proper segs -> String.concat "/" segs <> "".
Proof.
  intros Hne Hall. destruct segs as [|x t]; [contradiction|].
  inversion Hall as [|? ? (_ & H0 & _) _]; subst.
  destruct x as [|c x]; [contradiction|].
  destruct t; simpl; discriminate.
Qed.

Lemma isAbsolute_not_empty (path : string) : isAbsolute path = true -> path <> "".
Proof. intros H ->. discriminate. Qed.

(** The shape of [normalize] on an absolute path. *)
Lemma normalize_absolute (path : string) :
  isAbsolute path = true ->
  (segments false path = [] /\ normalize path = "/")
  \/ (segments false path <> []
      /\ exists trail,
           (trail = "" \/ trail = "/")
           /\ normalize path
              = "/" ++ String.concat "/" (rev (segments false path)) ++ trail).
Proof.
  intros Habs. unfold normalize.
  destruct (String.eqb_spec path "") as [E|_].
  { now apply isAbsolute_not_empty in E. }
  rewrite Habs. simpl negb. unfold normalizeString.
  destruct (segments false path) as [|seg segs] eqn:Hsegs.
  - left. now split.
  - right. split; [discriminate|].
    assert (Hall : Forall proper (rev (seg :: segs))).
    { apply Forall_rev. rewrite <- Hsegs. apply segments_absolute_proper. }
    assert (Hne : rev (seg :: segs) <> []).
    { intros E. apply (f_equal (@rev string)) in E.
      rewrite rev_involutive in E. discriminate. }
    destruct (String.eqb_spec (String.concat "/" (rev (seg :: segs))) "") as [E|_].
    { now apply concat_not_empty in E. }
    destruct (Js.endsWith path "/"); eauto.
Qed.

Lemma names_leading_slash (path : string) : names ("/" ++ path) = names path.
Proof.
  change ("/" ++ path) with ("" ++ String slash path).
  now rewrite names_append_slash.
Qed.

(** Normalizing an absolute path does not change what it resolves to. *)
Lemma resolved_normalize (path : string) :
  isAbsolute path = true -> resolved (normalize path) = resolved path.
Proof.
  intros Habs.
  destruct (normalize_absolute path Habs)
    as [[Hnil ->]|[Hne (trail & Htrail & ->)]]; unfold resolved at 2; rewrite Habs.
  - simpl negb. now rewrite Hnil.
  - unfold resolved. simpl isAbsolute. simpl negb. f_equal.
    rewrite segments_names, names_leading_slash.
    assert (Hproper : Forall proper (rev (segments false path)))
      by (apply Forall_rev, segments_absolute_proper).
    assert (Hrev : rev (segments false path) <> []).
    { intros E. apply (f_equal (@rev string)) in E.
      rewrite rev_involutive in E. now apply Hne. }
    assert (Hnames : names (String.concat "/" (rev (segments false path)) ++ trail)
                     = rev (segments false path)).
    { assert (E : names (String.concat "/" (rev (segments false path)))
                  = rev (segments false path)).
      { unfold names.
        rewrite split_concat by (auto using proper_no_slash).
        now apply proper_nonEmpty. }
      destruct Htrail as [->| ->].
      - now rewrite JsFacts.append_empty_r.
      - now rewrite names_trailing_slash. }
    rewrite Hnames, (fold_pushSegment_proper false _ Hproper).
    now rewrite rev_involutive, app_nil_r.
Qed.

Lemma isAbsolute_append (root remainder : string) :
  isAbsolute root = true -> isAbsolute (root ++ remainder) = true.
Proof.
  intros H. destruct root as [|c root]; [discriminate|].
  simpl in *. exact H.
Qed.

(** Absolute paths with the same non-empty segments are equal as paths. *)
Lemma pathEqual_names (p q : string) :
  isAbsolute p = true -> isAbsolute q = true -> names p = names q ->
  pathEqual p q.
Proof.
  intros Hp Hq Hn. unfold pathEqual, resolved.
  now rewrite Hp, Hq, !segments_names, Hn.
Qed.

Lemma pathEqual_normalize (p q : string) :
  isAbsolute p = true -> pathEqual p q -> pathEqual (normalize p) q.
Proof.
  intros Hp Hpq. unfold pathEqual in *. now rewrite resolved_normalize.
Qed.

(** [path.join] of an absolute root and a relative part. *)
Lemma join_root_empty (root : string) :
  isAbsolute root = true -> join [root; ""] = normalize root.
Proof.
  intros Habs. unfold join. simpl.
  destruct (String.eqb_spec root "") as [E|_]; [now apply isAbsolute_not_empty in E|].
  reflexivity.
Qed.

Lemma join_root_relative (root relative : string) :
  isAbsolute root = true -> relative <> "" ->
  join [root; relative] = normalize (root ++ "/" ++ relative).
Proof.
  intros Habs Hrel. unfold join. simpl.
  destruct (String.eqb_spec root "") as [E|_]; [now apply isAbsolute_not_empty in E|].
  destruct (String.eqb_spec relative "") as [E|_]; [contradiction|].
  reflexivity.
Qed.

End NormalizeFacts.

(** ** Round trip through the root-relative form *)

Section RoundTrip.
Import PosixFacts NormalizeFacts.
Variable h : Host.
Variables (root : string) (rest : list string).
Hypothesis Hjoin : join h = Posix.join.
Hypothesis Hsep : sep h = Posix.sep.
Hypothesis Hws : workspaceFolders h = Some (root :: rest).
Hypothesis Habs : Posix.isAbsolute root = true.

Lemma names_withTrailingSlash (result : string) :
  Posix.names (withTrailingSlash result) = Posix.names result.
Proof.
  destruct (withTrailingSlash_cases result) as [[-> ->]|[_ [->| ->]]];
    auto using names_trailing_slash.
Qed.

Lemma getFullPath_pathEqual (relative path : string) :
  Posix.isAbsolute path = true ->
  Posix.names path = (Posix.names root ++ Posix.names relative)%list ->
  Posix.pathEqual (getFullPath h relative) path.
Proof.
  intros Hpath Hnames. unfold getFullPath. rewrite Hws, Hjoin.
  destruct (String.eqb_spec relative "") as [->|Hne].
  - rewrite join_root_empty by exact Habs.
    apply pathEqual_normalize; [exact Habs|].
    apply pathEqual_names; auto.
    now rewrite Hnames, names_empty, app_nil_r.
  - rewrite join_root_relative by assumption.
    apply pathEqual_normalize; [now apply isAbsolute_append|].
    apply pathEqual_names; [now apply isAbsolute_append | exact Hpath |].
    change (root ++ "/" ++ relative) with (root ++ String Posix.slash relative).
    now rewrite names_append_slash.
Qed.

(** The remainder after the root, when no backslash is stripped from it. *)
Lemma round_trip_remainder (remainder : string) :
  Js.startsWith remainder Js.backslash = false ->
  remainder = "" \/ Js.startsWith remainder "/" = true \/ endsWithSlash root ->
  Posix.pathEqual (getFullPath h (getRelativePath h (root ++ remainder)))
    (root ++ remainder).
Proof.
  intros Hback Hform.
  rewrite (getRelativePath_inside h root rest Hws).
  apply getFullPath_pathEqual; [now apply isAbsolute_append|].
  rewrite names_withTrailingSlash.
  unfold stripLeadingSeparator. rewrite Hsep, Hback, orb_false_r.
  unfold Posix.sep.
  destruct (Js.startsWith remainder "/") eqn:Hslash.
  - apply JsFacts.startsWith_inv in Hslash as [r ->]. simpl Js.substring.
    change (root ++ "/" ++ r) with (root ++ String Posix.slash r).
    now rewrite names_append_slash.
  - destruct Hform as [->|[E|[root0 E]]].
    + now rewrite JsFacts.append_empty_r, names_empty, app_nil_r.
    + discriminate.
    + rewrite E at 1 2. rewrite names_trailing_slash.
      rewrite JsFacts.append_assoc.
      change (root0 ++ "/" ++ remainder) with (root0 ++ String Posix.slash remainder).
      now rewrite names_append_slash.
Qed.

End RoundTrip.

(** C2, as the code has it.  On a POSIX host, for an absolute root and a
    path at or under it, turning the path into its root-relative form and
    back gives a path equal to it, provided that what follows the root in
    the path does not begin with a backslash (which [getRelativePath] would
    strip although it belongs to a name). *)
Theorem relative_path_round_trip (h : Host) (root : string) (rest : list string)
  (path : string) :
  join h = Posix.join ->
  sep h = Posix.sep ->
  workspaceFolders h = Some (root :: rest) ->
  Posix.isAbsolute root = true ->
  Under root path ->
  Js.startsWith (Js.substring path (String.length root)) Js.backslash = false ->
  Posix.pathEqual (getFullPath h (getRelativePath h path)) path.
Proof.
  intros Hjoin Hsep Hws Habs Hunder Hback.
  destruct Hunder as [|r|r Hroot].
  - pose proof (round_trip_remainder h root rest Hjoin Hsep Hws Habs ""
                  eq_refl (or_introl eq_refl)) as H.
    now rewrite JsFacts.append_empty_r in H.
  - apply (round_trip_remainder h root rest); auto.
  - rewrite JsFacts.substring_append in Hback.
    apply (round_trip_remainder h root rest); auto.
Qed.

Lemma relative_path_round_trip_witness :
  Under "/ws" "/ws/src/deep"
  /\ getRelativePath Sample.rootHost "/ws/src/deep" = "src/deep/"
  /\ getFullPath Sample.rootHost "src/deep/" = "/ws/src/deep/"
  /\ Posix.pathEqual
       (getFullPath Sample.rootHost (getRelativePath Sample.rootHost "/ws/src/deep"))
       "/ws/src/deep".
Proof.
  assert (U : Under "/ws" "/ws/src/deep") by exact (under_sep "/ws" "src/deep").
  split; [exact U|]. split; [reflexivity|]. split; [reflexivity|].
  exact (relative_path_round_trip Sample.rootHost "/ws" [] "/ws/src/deep"
           eq_refl eq_refl eq_refl eq_refl U eq_refl).
Defined.

(** C2 as stated fails for a workspace opened on [/] and a child whose name
    begins with a backslash: the backslash is stripped as if it were a
    separator, and the way back leads to another path. *)
Lemma round_trip_loses_leading_backslash :
  workspaceFolders Sample.slashHost = Some ["/"]
  /\ Under "/" "/\foo"
  /\ getRelativePath Sample.slashHost "/\foo" = "foo/"
  /\ getFullPath Sample.slashHost (getRelativePath Sample.slashHost "/\foo")
     = "/foo/"
  /\ ~ Posix.pathEqual
         (getFullPath Sample.slashHost (getRelativePath Sample.slashHost "/\foo"))
         "/\foo".
Proof.
  split; [reflexivity|]. split.
  { apply (under_direct "/" "\foo"). now exists "". }
  split; [reflexivity|]. split; [reflexivity|].
  intros E. vm_compute in E. discriminate.
Qed.

(** ** Every displayed item is an entry of some kind *)

Section Displayed.
Variable h : Host.
Variable cur : string.

Lemma childItem_hasKind (file : string) (st : Stats.t) :
  file <> ".." -> hasKind h cur (childItem file (join h [cur; file]) st).
Proof.
  intros Hfile. destruct (Stats.isDirectory st) eqn:Hd.
  - exists Directory. now constructor.
  - exists File. now constructor.
Qed.

Lemma statLoop_hasKind (files : list string) :
  ~ In ".." files ->
  forall collected items,
    Forall (hasKind h cur) collected ->
    statLoop h cur files collected = Ok items ->
    Forall (hasKind h cur) items.
Proof.
  induction files as [|f files IH]; intros Hno collected items Hc Hok; simpl in Hok.
  - now inversion Hok; subst.
  - destruct (stat h (join h [cur; f])) as [st|e]; [|discriminate]. simpl in Hok.
    eapply IH; [| |exact Hok].
    + intros Hin. apply Hno. now right.
    + apply Forall_app. split; [exact Hc|].
      constructor; [|constructor].
      apply childItem_hasKind. intros ->. apply Hno. now left.
Qed.

(** [readdir] never reports the entry [..]; then all items of a listing are
    the parent link, directories or files. *)
Lemma listing_hasKind (files : list string) :
  readdir h cur = Ok files -> ~ In ".." files ->
  Forall (hasKind h cur) (fst (getDirectoryItems h cur)).
Proof.
  intros Hread Hno. unfold getDirectoryItems, tryDirectoryItems.
  rewrite Hread. simpl.
  match goal with
  | |- context [statLoop h cur files ?c] =>
      destruct (statLoop h cur files c) as [items|e] eqn:Hloop
  end; simpl; [|constructor].
  eapply Permutation_Forall; [apply sort_permutation|].
  eapply statLoop_hasKind; [exact Hno| |exact Hloop].
  destruct (workspaceFolders h) as [[|root rest]|]; try constructor.
  destruct (negb (cur =? root)); constructor; [|constructor].
  exists ParentLink. constructor.
Qed.

(** Typing keeps this: the only item the handler adds is a stub. *)
Lemma onDidChangeValue_hasKind (entries : list FileItem) (query : string) :
  Forall (hasKind h cur) entries ->
  Forall (hasKind h cur) (onDidChangeValue h cur entries query).
Proof.
  intros Hall.
  assert (Hreal : Forall (hasKind h cur) (withoutStubs entries)).
  { apply Forall_forall. intros e He. apply filter_In in He as [He _].
    revert e He. now apply Forall_forall. }
  rewrite onDidChangeValue_unfold.
  destruct (query =? ""); [exact Hreal|].
  destruct (negb _ && negb _); [|exact Hall].
  apply Forall_app. split; [exact Hreal|].
  constructor; [|constructor]. exists CreateStub. constructor.
Qed.

End Displayed.

(** * Further properties of the code *)

(** ** The shape of the display path *)

Module EndsWithFacts.
Import Js.

Lemma endsWith_cons (c d : ascii) (r : string) :
  endsWith (String c (String d r)) "/" = endsWith (String d r) "/".
Proof.
  unfold endsWith. simpl String.length. simpl Nat.leb. simpl Nat.sub.
  rewrite Nat.sub_0_r. reflexivity.
Qed.

Lemma endsWith_slash_iff (s : string) :
  endsWith s "/" = true <-> exists a, s = a ++ "/".
Proof.
  induction s as [|c r IH].
  - split; [discriminate|]. intros [[|x a] E]; discriminate.
  - destruct r as [|d r].
    + unfold endsWith. simpl. split.
      * intros H. destruct (Ascii.eqb_spec c "/") as [->|]; [|discriminate].
        now exists "".
      * intros [[|x a] E].
        -- simpl in E. inversion E. reflexivity.
        -- simpl in E. inversion E as [[Hx Ha]]. destruct a; discriminate.
    + rewrite endsWith_cons, IH. split.
      * intros [a E]. exists (String c a). simpl. now rewrite E.
      * intros [[|x a] E].
        -- discriminate.
        -- simpl in E. inversion E. now exists a.
Qed.

Lemma endsWith_append_slash (a : string) : endsWith (a ++ "/") "/" = true.
Proof. apply endsWith_slash_iff. now exists a. Qed.

End EndsWithFacts.

(** X1.  A path that starts with the workspace root is displayed either as
    the empty string or as a string that ends with a forward slash,
    whatever the platform separator is. *)
Theorem display_path_is_empty_or_closed (h : Host) (root : string)
  (rest : list string) (fullPath : string) :
  workspaceFolders h = Some (root :: rest) ->
  Js.startsWith fullPath root = true ->
  getRelativePath h fullPath = ""
  \/ Js.endsWith (getRelativePath h fullPath) "/" = true.
Proof.
  intros Hws Hp. apply JsFacts.startsWith_inv in Hp as [remainder ->].
  rewrite (getRelativePath_inside h root rest Hws).
  destruct (withTrailingSlash_cases (stripLeadingSeparator h remainder))
    as [[_ E]|[Hne [E|E]]].
  - now left.
  - right. unfold withTrailingSlash in *.
    destruct (String.eqb_spec (stripLeadingSeparator h remainder) "") as [?|_];
      [contradiction|].
    simpl in *.
    destruct (Js.endsWith (stripLeadingSeparator h remainder) "/") eqn:Hend;
      simpl in *; [exact Hend|].
    apply EndsWithFacts.endsWith_append_slash.
  - right. rewrite E. apply EndsWithFacts.endsWith_append_slash.
Qed.

Lemma display_path_is_empty_or_closed_witness :
  workspaceFolders Sample.windowsHost = Some ["C:\ws"]
  /\ Js.startsWith "C:\ws\a\b" "C:\ws" = true
  /\ (getRelativePath Sample.windowsHost "C:\ws\a\b" = ""
      \/ Js.endsWith (getRelativePath Sample.windowsHost "C:\ws\a\b") "/" = true).
Proof.
  split; [reflexivity|]. split; [reflexivity|].
  exact (display_path_is_empty_or_closed Sample.windowsHost "C:\ws" []
           "C:\ws\a\b" eq_refl eq_refl).
Defined.

(** X2.  On a host whose separator is the forward slash, the path made of
    the root, a slash and a non-empty remainder that does not end with a
    slash is displayed as that remainder followed by a slash: what the suite
    asserts for [src], [apps/app/service] and the like. *)
Theorem display_path_of_subdirectory (h : Host) (root : string)
  (rest : list string) (relative : string) :
  workspaceFolders h = Some (root :: rest) ->
  sep h = "/" ->
  relative <> "" ->
  Js.endsWith relative "/" = false ->
  getRelativePath h (root ++ "/" ++ relative) = relative ++ "/".
Proof.
  intros Hws Hsep Hne Hend.
  rewrite (getRelativePath_inside h root rest Hws).
  unfold stripLeadingSeparator. rewrite Hsep. simpl.
  unfold withTrailingSlash. rewrite Hend.
  destruct (String.eqb_spec relative "") as [?|_]; [contradiction|].
  reflexivity.
Qed.

Lemma display_path_of_subdirectory_witness :
  workspaceFolders Sample.rootHost = Some ["/ws"]
  /\ sep Sample.rootHost = "/"
  /\ "apps/app/service" <> ""
  /\ Js.endsWith "apps/app/service" "/" = false
  /\ getRelativePath Sample.rootHost "/ws/apps/app/service" = "apps/app/service/".
Proof.
  split; [reflexivity|]. split; [reflexivity|].
  split; [discriminate|]. split; [reflexivity|].
  exact (display_path_of_subdirectory Sample.rootHost "/ws" [] "apps/app/service"
           eq_refl eq_refl ltac:(discriminate) eq_refl).
Defined.

(** ** Paths in normal form *)

Module RenderFacts.
Import PosixFacts NormalizeFacts.

Lemma concat_app (a b : list string) :
  a <> [] -> b <> [] ->
  String.concat "/" (a ++ b) = String.concat "/" a ++ "/" ++ String.concat "/" b.
Proof.
  intros Ha Hb. induction a as [|x [|y a] IH]; [contradiction| |].
  - destruct b as [|z b]; [contradiction|]. reflexivity.
  - change (String.concat "/" ((x :: y :: a) ++ b))
      with (x ++ "/" ++ String.concat "/" ((y :: a) ++ b)).
    rewrite IH by discriminate.
    change (String.concat "/" (x :: y :: a))
      with (x ++ "/" ++ String.concat "/" (y :: a)).
    now rewrite !JsFacts.append_assoc.
Qed.

Lemma names_concat (segs : list string) :
  Forall Posix.proper segs -> Posix.names (String.concat "/" segs) = segs.
Proof.
  intros Hall. destruct segs as [|x t]; [reflexivity|].
  unfold Posix.names.
  rewrite split_concat by (auto using proper_no_slash; discriminate).
  now apply proper_nonEmpty.
Qed.

Lemma names_render (segs : list string) :
  Forall Posix.proper segs -> Posix.names (render segs) = segs.
Proof.
  intros Hall. unfold render. rewrite names_leading_slash.
  now apply names_concat.
Qed.

(** A path whose last segment is not empty does not end with a slash. *)
Lemma endsWith_false_by_last (path : string) (front : list string) (final : string) :
  Posix.split path = (front ++ [final])%list -> final <> "" ->
  Js.endsWith path "/" = false.
Proof.
  intros Hsplit Hfinal.
  destruct (Js.endsWith path "/") eqn:E; [|reflexivity].
  apply EndsWithFacts.endsWith_slash_iff in E as [a ->].
  change (a ++ "/") with (a ++ String Posix.slash "") in Hsplit.
  rewrite split_append_slash in Hsplit. simpl Posix.split in Hsplit.
  apply app_inj_tail in Hsplit as [_ Hlast]. now symmetry in Hlast.
Qed.

Lemma proper_last (segs front : list string) (final : string) :
  Forall Posix.proper segs -> segs = (front ++ [final])%list -> final <> "".
Proof.
  intros Hall ->. apply Forall_app in Hall as [_ Hlast].
  inversion Hlast as [|? ? (_ & H0 & _) _]. exact H0.
Qed.

Lemma endsWith_after_slash (prefix : string) (segs : list string) :
  segs <> [] -> Forall Posix.proper segs ->
  Js.endsWith (prefix ++ "/" ++ String.concat "/" segs) "/" = false.
Proof.
  intros Hne Hall.
  destruct (exists_last Hne) as (front & final & E).
  apply (endsWith_false_by_last _ (Posix.split prefix ++ front) final).
  - change (prefix ++ "/" ++ String.concat "/" segs)
      with (prefix ++ String Posix.slash (String.concat "/" segs)).
    rewrite split_append_slash, split_concat by (auto using proper_no_slash).
    now rewrite E, app_assoc.
  - eapply proper_last; eassumption.
Qed.

Lemma endsWith_concat (segs : list string) :
  segs <> [] -> Forall Posix.proper segs ->
  Js.endsWith (String.concat "/" segs) "/" = false.
Proof.
  intros Hne Hall.
  destruct (exists_last Hne) as (front & final & E).
  apply (endsWith_false_by_last _ front final).
  - now rewrite split_concat by (auto using proper_no_slash).
  - eapply proper_last; eassumption.
Qed.

(** [normalize] of an absolute path whose non-empty segments are all
    proper: the segments joined by slashes, and the closing slash kept. *)
Lemma normalize_by_names (path : string) :
  Posix.isAbsolute path = true ->
  Forall Posix.proper (Posix.names path) ->
  Posix.names path <> [] ->
  Posix.normalize path
  = render (Posix.names path) ++ (if Js.endsWith path "/" then "/" else "").
Proof.
  intros Habs Hall Hne. unfold Posix.normalize.
  destruct (String.eqb_spec path "") as [E|_];
    [now apply isAbsolute_not_empty in E|].
  rewrite Habs. simpl negb. unfold Posix.normalizeString.
  rewrite segments_names, (fold_pushSegment_proper false _ Hall).
  rewrite app_nil_r, rev_involutive.
  destruct (String.eqb_spec (String.concat "/" (Posix.names path)) "") as [E|_].
  { now apply concat_not_empty in E. }
  unfold render. now rewrite JsFacts.append_assoc.
Qed.

Lemma normalize_root_slash : Posix.normalize "/" = "/".
Proof. reflexivity. Qed.

(** A path in normal form is left as it is. *)
Lemma normalize_render (segs : list string) :
  Forall Posix.proper segs -> Posix.normalize (render segs) = render segs.
Proof.
  intros Hall. destruct segs as [|x t].
  - reflexivity.
  - assert (E : Js.endsWith (render (x :: t)) "/" = false).
    { apply (endsWith_after_slash "" (x :: t)); [discriminate | exact Hall]. }
    rewrite normalize_by_names; rewrite ?names_render; auto; try discriminate.
    rewrite E. apply JsFacts.append_empty_r.
Qed.

Lemma isAbsolute_render (segs : list string) : Posix.isAbsolute (render segs) = true.
Proof. reflexivity. Qed.

(** Joining a path in normal form with relative segments. *)
Lemma join_render (rs ns : list string) :
  Forall Posix.proper rs -> Forall Posix.proper ns -> ns <> [] ->
  Posix.join [render rs; String.concat "/" ns] = render (rs ++ ns).
Proof.
  intros Hrs Hns Hne.
  rewrite join_root_relative
    by (auto using isAbsolute_render, concat_not_empty).
  assert (Hnames : Posix.names (render rs ++ "/" ++ String.concat "/" ns)
                   = (rs ++ ns)%list).
  { change (render rs ++ "/" ++ String.concat "/" ns)
      with (render rs ++ String Posix.slash (String.concat "/" ns)).
    now rewrite names_append_slash, names_render, names_concat. }
  rewrite normalize_by_names; rewrite ?Hnames.
  - rewrite endsWith_after_slash by assumption. apply JsFacts.append_empty_r.
  - now apply isAbsolute_append.
  - apply Forall_app. now split.
  - destruct rs; destruct ns; try discriminate. contradiction.
Qed.

Lemma join_render_closed (rs ns : list string) :
  Forall Posix.proper rs -> Forall Posix.proper ns -> ns <> [] ->
  Posix.join [render rs; String.concat "/" ns ++ "/"] = render (rs ++ ns) ++ "/".
Proof.
  intros Hrs Hns Hne.
  assert (Hrel : String.concat "/" ns ++ "/" <> "").
  { destruct (String.concat "/" ns); discriminate. }
  rewrite join_root_relative by (auto using isAbsolute_render).
  assert (Hnames : Posix.names (render rs ++ "/" ++ String.concat "/" ns ++ "/")
                   = (rs ++ ns)%list).
  { change (render rs ++ "/" ++ String.concat "/" ns ++ "/")
      with (render rs ++ String Posix.slash (String.concat "/" ns ++ "/")).
    now rewrite names_append_slash, names_trailing_slash, names_render,
      names_concat. }
  rewrite normalize_by_names; rewrite ?Hnames.
  - replace (render rs ++ "/" ++ String.concat "/" ns ++ "/")
      with ((render rs ++ "/" ++ String.concat "/" ns) ++ "/")
      by (now rewrite !JsFacts.append_assoc).
    now rewrite EndsWithFacts.endsWith_append_slash.
  - now apply isAbsolute_append.
  - apply Forall_app. now split.
  - destruct rs; destruct ns; try discriminate. contradiction.
Qed.

Lemma render_app (rs ns : list string) :
  rs <> [] -> ns <> [] ->
  render (rs ++ ns) = render rs ++ "/" ++ String.concat "/" ns.
Proof.
  intros Hrs Hns. unfold render. now rewrite concat_app.
Qed.

End RenderFacts.

(** ** From the display path back to the full path *)

Section FullPath.
Import RenderFacts.
Variable h : Host.
Variables (rs : list string) (rest : list string).
Hypothesis Hjoin : join h = Posix.join.
Hypothesis Hws : workspaceFolders h = Some (render rs :: rest).
Hypothesis Hrs : Forall Posix.proper rs.

Lemma getFullPath_empty : getFullPath h "" = render rs.
Proof.
  unfold getFullPath. rewrite Hws, Hjoin.
  rewrite NormalizeFacts.join_root_empty by apply isAbsolute_render.
  now apply normalize_render.
Qed.

Lemma getFullPath_segments (ns : list string) :
  ns <> [] -> Forall Posix.proper ns ->
  getFullPath h (String.concat "/" ns) = render (rs ++ ns).
Proof.
  intros Hne Hns. unfold getFullPath. rewrite Hws, Hjoin.
  now apply join_render.
Qed.

Lemma getFullPath_segments_closed (ns : list string) :
  ns <> [] -> Forall Posix.proper ns ->
  getFullPath h (String.concat "/" ns ++ "/") = render (rs ++ ns) ++ "/".
Proof.
  intros Hne Hns. unfold getFullPath. rewrite Hws, Hjoin.
  now apply join_render_closed.
Qed.

Hypothesis Hsep : sep h = "/".

Lemma getRelativePath_after_slash (remainder : string) :
  getRelativePath h (render rs ++ "/" ++ remainder) = withTrailingSlash remainder.
Proof.
  rewrite (getRelativePath_inside h (render rs) rest Hws).
  unfold stripLeadingSeparator. now rewrite Hsep.
Qed.

End FullPath.

(** X3.  With POSIX joining and a workspace root in normal form,
    [getFullPath] of the empty string is the root itself, and [getFullPath]
    of relative segments is the normal-form path of the root's segments
    followed by them; a closing slash of the relative path is kept. *)
Theorem full_path_of_relative_segments (h : Host) (rs : list string)
  (rest : list string) :
  join h = Posix.join ->
  workspaceFolders h = Some (render rs :: rest) ->
  Forall Posix.proper rs ->
  getFullPath h "" = render rs
  /\ (forall ns, ns <> [] -> Forall Posix.proper ns ->
        getFullPath h (String.concat "/" ns) = render (rs ++ ns)
        /\ getFullPath h (String.concat "/" ns ++ "/") = render (rs ++ ns) ++ "/").
Proof.
  intros Hjoin Hws Hrs. split.
  - now apply (getFullPath_empty h rs rest).
  - intros ns Hne Hns. split.
    + now apply (getFullPath_segments h rs rest).
    + now apply (getFullPath_segments_closed h rs rest).
Qed.

Lemma ws_proper : Forall Posix.proper ["ws"].
Proof. repeat constructor; discriminate. Qed.

Lemma apps_proper : Forall Posix.proper ["apps"; "app"; "service"].
Proof. repeat constructor; discriminate. Qed.

Lemma full_path_of_relative_segments_witness :
  join Sample.rootHost = Posix.join
  /\ workspaceFolders Sample.rootHost = Some [render ["ws"]]
  /\ getFullPath Sample.rootHost "" = "/ws"
  /\ getFullPath Sample.rootHost "apps/app/service" = "/ws/apps/app/service"
  /\ getFullPath Sample.rootHost "apps/app/service/" = "/ws/apps/app/service/".
Proof.
  destruct (full_path_of_relative_segments Sample.rootHost ["ws"] []
              eq_refl eq_refl ws_proper) as [Hroot Hsegs].
  destruct (Hsegs ["apps"; "app"; "service"] ltac:(discriminate) apps_proper)
    as [Hopen Hclosed].
  split; [reflexivity|]. split; [reflexivity|].
  split; [exact Hroot|]. split; [exact Hopen | exact Hclosed].
Defined.

(** X4.  With POSIX paths and a workspace root in normal form other than
    [/], going from a display path to the full path and back gives the
    display path again: the empty string for the root, and the relative
    segments closed by one slash, whether or not the slash was there. *)
Theorem display_path_is_fixed_point (h : Host) (rs : list string)
  (rest : list string) :
  join h = Posix.join ->
  sep h = "/" ->
  workspaceFolders h = Some (render rs :: rest) ->
  rs <> [] ->
  Forall Posix.proper rs ->
  getRelativePath h (getFullPath h "") = ""
  /\ (forall ns, ns <> [] -> Forall Posix.proper ns ->
        getRelativePath h (getFullPath h (String.concat "/" ns))
        = String.concat "/" ns ++ "/"
        /\ getRelativePath h (getFullPath h (String.concat "/" ns ++ "/"))
           = String.concat "/" ns ++ "/").
Proof.
  intros Hjoin Hsep Hws Hne Hrs. split.
  - rewrite (getFullPath_empty h rs rest Hjoin Hws Hrs).
    now apply (getRelativePath_root h (render rs) rest).
  - intros ns Hns Hall.
    assert (Hrel : String.concat "/" ns <> "")
      by now apply NormalizeFacts.concat_not_empty.
    split.
    + rewrite (getFullPath_segments h rs rest Hjoin Hws Hrs ns Hns Hall).
      rewrite RenderFacts.render_app by assumption.
      rewrite (getRelativePath_after_slash h rs rest Hws Hsep).
      unfold withTrailingSlash.
      rewrite RenderFacts.endsWith_concat by assumption.
      destruct (String.eqb_spec (String.concat "/" ns) "") as [?|_];
        [contradiction | reflexivity].
    + rewrite (getFullPath_segments_closed h rs rest Hjoin Hws Hrs ns Hns Hall).
      rewrite RenderFacts.render_app by assumption.
      rewrite !JsFacts.append_assoc.
      rewrite (getRelativePath_after_slash h rs rest Hws Hsep).
      unfold withTrailingSlash.
      rewrite EndsWithFacts.endsWith_append_slash.
      now rewrite andb_false_r.
Qed.

Lemma display_path_is_fixed_point_witness :
  sep Sample.rootHost = "/"
  /\ getRelativePath Sample.rootHost (getFullPath Sample.rootHost "") = ""
  /\ getRelativePath Sample.rootHost (getFullPath Sample.rootHost "apps/app/service")
     = "apps/app/service/"
  /\ getRelativePath Sample.rootHost (getFullPath Sample.rootHost "apps/app/service/")
     = "apps/app/service/".
Proof.
  destruct (display_path_is_fixed_point Sample.rootHost ["ws"] []
              eq_refl eq_refl eq_refl ltac:(discriminate) ws_proper)
    as [Hroot Hsegs].
  destruct (Hsegs ["apps"; "app"; "service"] ltac:(discriminate) apps_proper)
    as [Hopen Hclosed].
  split; [reflexivity|]. split; [exact Hroot|].
  split; [exact Hopen | exact Hclosed].
Defined.

(** ** What a listing consists of *)

Section ListingContents.
Variable h : Host.
Variable cur : string.

Lemma statLoop_children (files : list string) (stats : list Stats.t) :
  Forall2 (fun file st => stat h (join h [cur; file]) = Ok st) files stats ->
  forall collected,
    statLoop h cur files collected
    = Ok (collected ++ map (childItemOf h cur) (combine files stats))%list.
Proof.
  induction 1 as [|file st files stats Hst _ IH]; intros collected; simpl.
  - now rewrite app_nil_r.
  - rewrite Hst. simpl. rewrite IH, <- app_assoc. reflexivity.
Qed.

Lemma tryDirectoryItems_children (files : list string) (stats : list Stats.t) :
  readdir h cur = Ok files ->
  Forall2 (fun file st => stat h (join h [cur; file]) = Ok st) files stats ->
  tryDirectoryItems h cur
  = Ok (sort (compareItems h)
          (goUpItems h cur ++ map (childItemOf h cur) (combine files stats))).
Proof.
  intros Hread Hstats. unfold tryDirectoryItems. rewrite Hread. simpl.
  rewrite (statLoop_children files stats Hstats). simpl.
  unfold goUpItems.
  destruct (workspaceFolders h) as [[|root rest]|]; try reflexivity.
  now destruct (cur =? root).
Qed.

(** The loop only appends, and what it appends is never labelled [..]. *)
Lemma statLoop_appends (files : list string) :
  ~ In ".." files ->
  forall collected items,
    statLoop h cur files collected = Ok items ->
    exists children,
      items = (collected ++ children)%list
      /\ Forall (fun item => label item <> ".." /\ isStub item = false) children.
Proof.
  induction files as [|f files IH]; intros Hno collected items Hok; simpl in Hok.
  - inversion Hok; subst. exists []. split; [now rewrite app_nil_r | constructor].
  - destruct (stat h (join h [cur; f])) as [st|e]; [|discriminate]. simpl in Hok.
    apply IH in Hok as (children & -> & Hall); [|intros Hin; apply Hno; now right].
    exists (childItem f (join h [cur; f]) st :: children).
    split; [now rewrite <- app_assoc|].
    constructor; [|exact Hall]. split; [|reflexivity].
    destruct (Stats.isDirectory st) eqn:Hd.
    + rewrite childItem_label_directory by assumption.
      apply directory_label_not_parent.
    + rewrite childItem_label_file by assumption.
      intros ->. apply Hno. now left.
Qed.

End ListingContents.

(** X5.  When [readdir] and every [stat] succeed, the listing shows no
    message and consists of exactly one item per child, whose path is
    [join(currentPath, name)] and whose label is the name, followed by a
    slash for a directory, together with the go-up item when there is a
    workspace and the directory is not its root.  No child is left out, not
    even a hidden one. *)
Theorem listing_has_one_item_per_child (h : Host) (cur : string)
  (files : list string) (stats : list Stats.t) :
  readdir h cur = Ok files ->
  Forall2 (fun file st => stat h (join h [cur; file]) = Ok st) files stats ->
  snd (getDirectoryItems h cur) = []
  /\ Permutation
       (goUpItems h cur ++ map (childItemOf h cur) (combine files stats))
       (fst (getDirectoryItems h cur))
  /\ List.length (fst (getDirectoryItems h cur))
     = List.length (goUpItems h cur) + List.length files.
Proof.
  intros Hread Hstats. unfold getDirectoryItems.
  rewrite (tryDirectoryItems_children h cur files stats Hread Hstats). simpl.
  split; [reflexivity|]. split; [apply sort_permutation|].
  rewrite <- (Permutation_length (sort_permutation _ _)).
  rewrite length_app, length_map, length_combine.
  apply Forall2_length in Hstats. rewrite <- Hstats, Nat.min_id. reflexivity.
Qed.

Lemma listing_has_one_item_per_child_witness :
  readdir Sample.srcHost "/ws/src" = Ok ["zeta.ts"; "alpha.ts"]
  /\ snd (getDirectoryItems Sample.srcHost "/ws/src") = []
  /\ List.length (fst (getDirectoryItems Sample.srcHost "/ws/src")) = 3.
Proof.
  destruct (listing_has_one_item_per_child Sample.srcHost "/ws/src"
              ["zeta.ts"; "alpha.ts"] [Sample.file; Sample.file] eq_refl)
    as (Hmsg & _ & Hlen).
  { repeat constructor. }
  split; [reflexivity|]. split; [exact Hmsg | exact Hlen].
Defined.

(** X6.  When the listing succeeds and [readdir] reports no child named
    [..]: inside a workspace and away from its root the first item is the
    go-up item, whose path is the parent of the directory, and no other
    item is labelled [..]; at the workspace root no item is labelled [..]. *)
Theorem go_up_item_first_or_absent (h : Host) (root : string)
  (rest : list string) (cur : string) (files : list string)
  (listed : list FileItem) :
  workspaceFolders h = Some (root :: rest) ->
  readdir h cur = Ok files ->
  ~ In ".." files ->
  tryDirectoryItems h cur = Ok listed ->
  (cur <> root ->
     exists others,
       listed = goUpItem h cur :: others
       /\ uri (goUpItem h cur) = dirname h cur
       /\ Forall (fun item => label item <> "..") others)
  /\ (cur = root -> Forall (fun item => label item <> "..") listed).
Proof.
  intros Hws Hread Hno Htry.
  unfold tryDirectoryItems in Htry. rewrite Hread, Hws in Htry. simpl in Htry.
  match type of Htry with
  | context [statLoop h cur files ?c] =>
      destruct (statLoop h cur files c) as [items|e] eqn:Hloop
  end; [|discriminate].
  simpl in Htry. inversion Htry; subst listed. clear Htry.
  apply (statLoop_appends h cur files Hno) in Hloop as (children & -> & Hall).
  assert (Hsorted : Forall (fun item => label item <> "..")
                      (sort (compareItems h) children)).
  { eapply Permutation_Forall; [apply sort_permutation|].
    eapply Forall_impl; [|exact Hall]. now intros item [H _]. }
  split.
  - intros Hcur. destruct (String.eqb_spec cur root) as [?|_]; [contradiction|].
    simpl. exists (sort (compareItems h) children).
    split; [|split; [reflexivity | exact Hsorted]].
    destruct (sort (compareItems h) children); reflexivity.
  - intros Hcur. destruct (String.eqb_spec cur root) as [_|?]; [|contradiction].
    exact Hsorted.
Qed.

Lemma go_up_item_first_or_absent_witness :
  tryDirectoryItems Sample.srcHost "/ws/src"
  = Ok (fst (getDirectoryItems Sample.srcHost "/ws/src"))
  /\ "/ws/src" <> "/ws"
  /\ exists others,
       fst (getDirectoryItems Sample.srcHost "/ws/src")
       = goUpItem Sample.srcHost "/ws/src" :: others
       /\ uri (goUpItem Sample.srcHost "/ws/src") = "/ws"
       /\ Forall (fun item => label item <> "..") others.
Proof.
  assert (Hno : ~ In ".." ["zeta.ts"; "alpha.ts"]).
  { intros [E|[E|[]]]; discriminate. }
  destruct (go_up_item_first_or_absent Sample.srcHost "/ws" [] "/ws/src"
              ["zeta.ts"; "alpha.ts"]
              (fst (getDirectoryItems Sample.srcHost "/ws/src"))
              eq_refl eq_refl Hno eq_refl) as [Haway _].
  split; [reflexivity|]. split; [discriminate|].
  apply Haway. discriminate.
Defined.

(** ** The query handler and the listing *)

Section QueryFrame.
Variable h : Host.
Variable cur : string.

Lemma withoutStubs_app_stub (entries : list FileItem) (query : string) :
  withoutStubs (withoutStubs entries ++ [createFileItem h cur query])
  = withoutStubs entries.
Proof.
  unfold withoutStubs at 1. rewrite filter_app. simpl.
  fold (withoutStubs (withoutStubs entries)).
  rewrite withoutStubs_idempotent. apply app_nil_r.
Qed.

Lemma onDidChangeValue_withoutStubs (entries : list FileItem) (query : string) :
  withoutStubs (onDidChangeValue h cur entries query) = withoutStubs entries.
Proof.
  rewrite onDidChangeValue_unfold.
  destruct (query =? ""); [apply withoutStubs_idempotent|].
  destruct (negb _ && negb _); [apply withoutStubs_app_stub | reflexivity].
Qed.

Lemma listing_without_stubs (dir : string) :
  Forall (fun item => isStub item = false) (fst (getDirectoryItems h dir)).
Proof.
  unfold getDirectoryItems, tryDirectoryItems.
  destruct (readdir h dir) as [files|e]; simpl; [|constructor].
  match goal with
  | |- context [statLoop h dir files ?c] =>
      assert (Hc : Forall (fun item => isStub item = false) c);
      [|generalize dependent c]
  end.
  { destruct (workspaceFolders h) as [[|root rest]|]; try constructor.
    destruct (negb (dir =? root)); repeat constructor. }
  induction files as [|f files IH]; intros c Hc; simpl.
  - eapply Permutation_Forall; [apply sort_permutation | exact Hc].
  - destruct (stat h (join h [dir; f])) as [st|e]; simpl; [|constructor].
    apply IH. apply Forall_app. split; [exact Hc | repeat constructor].
Qed.

End QueryFrame.

(** X7.  Whatever is typed, the handler leaves the entries other than
    create-file items as they are, in their order: it never removes, adds
    or moves an entry of the directory. *)
Theorem typing_keeps_directory_entries (h : Host) (cur : string)
  (entries : list FileItem) (query : string) :
  withoutStubs (onDidChangeValue h cur entries query) = withoutStubs entries.
Proof. apply onDidChangeValue_withoutStubs. Qed.

(** X8.  Handling the same text a second time changes nothing: the list
    the handler leaves is a fixed point of the handler for that text. *)
Theorem typing_same_text_twice (h : Host) (cur : string)
  (entries : list FileItem) (query : string) :
  onDidChangeValue h cur (onDidChangeValue h cur entries query) query
  = onDidChangeValue h cur entries query.
Proof.
  rewrite (onDidChangeValue_unfold h cur (onDidChangeValue h cur entries query)).
  rewrite onDidChangeValue_withoutStubs.
  rewrite (onDidChangeValue_unfold h cur entries query).
  destruct (query =? ""); [reflexivity|].
  destruct (negb _ && negb _); reflexivity.
Qed.

(** ** What an open picker displays *)

Section Displays.
Variable h : Host.

Lemma fresh_listing_showsListing (s : Session) :
  title s = titleOf h (currentPath s) ->
  items s = fst (getDirectoryItems h (currentPath s)) ->
  showsListing h s.
Proof.
  intros Ht Hi.
  assert (Hclean : withoutStubs (items s) = items s).
  { rewrite Hi. apply withoutStubs_id, listing_without_stubs. }
  repeat split.
  - exact Ht.
  - now rewrite Hclean.
  - left. now rewrite Hclean.
Qed.

Lemma showQuickPick_showsListing (s : Session) : showsListing h (showQuickPick h s).
Proof.
  apply fresh_listing_showsListing; unfold showQuickPick;
    destruct (getDirectoryItems h (currentPath s)) eqn:E; simpl;
    rewrite ?E; reflexivity.
Qed.

Lemma navigate_showsListing (s : Session) (newPath : string) :
  showsListing h s ->
  showsListing h (navigateToPathAndUpdateQuickPick h s newPath).
Proof.
  intros Hs. unfold navigateToPathAndUpdateQuickPick.
  destruct (aboveWorkspaceRoot h newPath); [exact Hs|].
  apply fresh_listing_showsListing;
    destruct (getDirectoryItems h newPath) eqn:E; simpl;
    rewrite ?E; reflexivity.
Qed.

Lemma changeValue_showsListing (s : Session) (v : string) :
  showsListing h s -> showsListing h (changeValue h s v).
Proof.
  intros (Ht & Hl & Hshape). unfold showsListing. simpl.
  rewrite onDidChangeValue_withoutStubs.
  split; [exact Ht|]. split; [exact Hl|].
  rewrite onDidChangeValue_unfold.
  destruct (v =? ""); [now left|].
  destruct (negb _ && negb _); [|exact Hshape].
  right. now exists v.
Qed.

Lemma perform_showsListing (s : Session) (a : Action) :
  showsListing h s -> showsListing h (perform h s a).
Proof.
  intros Hs. destruct a as [p|p|p|p]; simpl.
  - now apply navigate_showsListing.
  - destruct (writeFile h p); [destruct (openAndShow h p)|]; exact Hs.
  - now apply navigate_showsListing.
  - destruct (openAndShow h p); exact Hs.
Qed.

Lemma handle_showsListing (s : Session) (e : Event) :
  showsListing h s -> showsListing h (handle h s e).
Proof.
  intros Hs. destruct e as [[item|]|v|tooltip]; simpl.
  - now apply perform_showsListing.
  - exact Hs.
  - now apply changeValue_showsListing.
  - unfold onDidTriggerButton. destruct (tooltip =? "Go Up"); [|exact Hs].
    now apply navigate_showsListing.
Qed.

Lemma show_showsListing :
  visible (show h loaded) = true -> showsListing h (show h loaded).
Proof.
  unfold show.
  destruct (activeTextEditor h) as [fsPath|].
  - intros _. apply showQuickPick_showsListing.
  - destruct (workspaceFolders h) as [[|root rest]|]; try discriminate.
    intros _. apply showQuickPick_showsListing.
Qed.

End Displays.

(** X9.  In every state of a session whose picker was opened, the title is
    the marker followed by the display path of the current directory, and
    at most one create-file item is displayed: it comes last, and its path
    is [join(currentPath, text)] for the text it was made for. *)
Theorem open_picker_title_and_create_item (h : Host) (s : Session) :
  visible (show h loaded) = true ->
  Reachable h s ->
  showsTitleAndCreateItem h s.
Proof.
  intros Hopen Hs.
  assert (Hinv : showsListing h s).
  { induction Hs as [|s e _ IH _ _].
    - now apply show_showsListing.
    - now apply handle_showsListing. }
  destruct Hinv as (Ht & _ & Hshape). now split.
Qed.

Lemma open_picker_title_and_create_item_witness :
  visible (show Sample.srcHost loaded) = true
  /\ Reachable Sample.srcHost
       (handle Sample.srcHost
          (handle Sample.srcHost (show Sample.srcHost loaded) (ChangeValue "new"))
          (TriggerButton "Go Up"))
  /\ showsTitleAndCreateItem Sample.srcHost
       (handle Sample.srcHost
          (handle Sample.srcHost (show Sample.srcHost loaded) (ChangeValue "new"))
          (TriggerButton "Go Up")).
Proof.
  assert (R : Reachable Sample.srcHost
                (handle Sample.srcHost
                   (handle Sample.srcHost (show Sample.srcHost loaded)
                      (ChangeValue "new"))
                   (TriggerButton "Go Up"))).
  { apply reach_handle; [|reflexivity|exact I].
    apply reach_handle; [|reflexivity|exact I].
    apply reach_show. }
  split; [reflexivity|]. split; [exact R|].
  exact (open_picker_title_and_create_item Sample.srcHost _ eq_refl R).
Defined.

(** ** Going up *)

Module DirnameFacts.
Import Posix.

Lemma dirnameScan_bounds (path : string) (i : nat) :
  forall matchedSlash e,
    dirnameScan path i matchedSlash = Some e ->
    1 <= e <= i /\ (matchedSlash = true -> e < i).
Proof.
  induction i as [|i IH]; intros m e H; simpl in H; [discriminate|].
  destruct (isSlashAt path (S i)).
  - destruct m; simpl in H.
    + apply IH in H as [Hb _]. split; [lia | intros _; lia].
    + inversion H; subst. split; [lia | discriminate].
  - apply IH in H as [Hb _]. split; [lia | intros _; lia].
Qed.

Lemma substring_length_le (e : nat) (s : string) :
  String.length (String.substring 0 e s) <= e.
Proof.
  revert s; induction e as [|e IH]; intros [|c s]; simpl; try lia.
  specialize (IH s). lia.
Qed.

Lemma substring_prefix (a b : string) :
  String.substring 0 (String.length a) (a ++ b) = a.
Proof.
  induction a as [|c a IH]; simpl.
  - now destruct b.
  - now rewrite IH.
Qed.

Lemma isAbsolute_head (path : string) :
  isAbsolute path = true -> exists r, path = String slash r.
Proof.
  destruct path as [|c r]; [discriminate|].
  change (isAbsolute (String c r)) with (Ascii.eqb "/" c && true).
  destruct (Ascii.eqb_spec "/"%char c) as [<-|]; [|discriminate].
  intros _. now exists r.
Qed.

(** The parent of an absolute path other than [/] is shorter than it. *)
Lemma dirname_shorter (path : string) :
  isAbsolute path = true -> path <> "/" ->
  String.length (dirname path) < String.length path.
Proof.
  intros Habs Hne. destruct (isAbsolute_head path Habs) as [r ->].
  assert (Hr : 1 <= String.length r).
  { destruct r; [contradiction | simpl; lia]. }
  unfold dirname. simpl String.length. simpl Nat.eqb.
  change (isSlashAt (String slash r) 0) with true. simpl Nat.sub.
  rewrite Nat.sub_0_r.
  destruct (dirnameScan (String slash r) (String.length r) true) as [e|] eqn:E.
  - apply dirnameScan_bounds in E as [Hb Hlt]. specialize (Hlt eq_refl).
    simpl andb. destruct (e =? 1)%nat eqn:He.
    + apply Nat.eqb_eq in He. simpl. lia.
    + destruct e as [|e']; simpl; [lia|].
      pose proof (substring_length_le e' r). lia.
  - simpl. lia.
Qed.

Lemma get_append_right (a b : string) (n : nat) :
  String.get (String.length a + n) (a ++ b) = String.get n b.
Proof. induction a as [|c a IH]; simpl; auto. Qed.

Lemma isSlashAt_append_right (a b : string) (n : nat) :
  isSlashAt (a ++ b) (String.length a + n) = isSlashAt b n.
Proof. unfold isSlashAt. now rewrite get_append_right. Qed.

Lemma isSlashAt_no_slash (name : string) :
  hasSlash name = false -> forall n, isSlashAt name n = false.
Proof.
  induction name as [|c name IH]; intros H n.
  - now destruct n.
  - simpl in H. apply orb_false_iff in H as [Hc Hn].
    destruct n as [|n]; [exact Hc | apply (IH Hn)].
Qed.

(** Scanning back over a last segment without slashes stops at the slash
    before it. *)
Lemma dirnameScan_last_segment (a name : string) :
  1 <= String.length a -> hasSlash name = false ->
  forall k matchedSlash,
    (k = 0 -> matchedSlash = false) ->
    dirnameScan (a ++ String slash name) (String.length a + k) matchedSlash
    = Some (String.length a).
Proof.
  intros Ha Hname. induction k as [|k IH]; intros m Hm.
  - rewrite Nat.add_0_r. rewrite (Hm eq_refl).
    destruct (String.length a) as [|n] eqn:E; [lia|].
    simpl. rewrite <- E.
    replace (String.length a) with (String.length a + 0) at 1 by lia.
    rewrite isSlashAt_append_right. unfold isSlashAt. simpl.
    reflexivity.
  - rewrite Nat.add_succ_r. simpl.
    replace (S (String.length a + k)) with (String.length a + S k) by lia.
    rewrite isSlashAt_append_right.
    change (isSlashAt (String slash name) (S k)) with (isSlashAt name k).
    rewrite (isSlashAt_no_slash name Hname).
    apply IH. reflexivity.
Qed.

Lemma dirnameScan_no_slash (path : string) (i : nat) :
  (forall j, 1 <= j <= i -> isSlashAt path j = false) ->
  forall matchedSlash, dirnameScan path i matchedSlash = None.
Proof.
  induction i as [|i IH]; intros H m; simpl; [reflexivity|].
  rewrite (H (S i)) by lia. apply IH. intros j Hj. apply H. lia.
Qed.

Lemma length_render_ge (x : string) (t : list string) :
  x <> "" -> 2 <= String.length (render (x :: t)).
Proof.
  intros Hx. destruct x as [|c x]; [contradiction|].
  unfold render. destruct t; simpl; lia.
Qed.

Lemma dirname_last_segment (a name : string) :
  2 <= String.length a -> hasSlash name = false -> 1 <= String.length name ->
  dirname (a ++ String slash name) = a.
Proof.
  intros Hge Hslash Hlen. unfold dirname.
  rewrite JsFacts.length_append.
  change (String.length (String slash name)) with (S (String.length name)).
  destruct (String.length a + S (String.length name) =? 0)%nat eqn:E.
  { apply Nat.eqb_eq in E. lia. }
  replace (String.length a + S (String.length name) - 1)
    with (String.length a + String.length name) by lia.
  rewrite dirnameScan_last_segment; [|lia|exact Hslash|lia].
  destruct (String.length a =? 1)%nat eqn:E1.
  { apply Nat.eqb_eq in E1. lia. }
  rewrite andb_false_r. apply substring_prefix.
Qed.

(** The parent of a path in normal form is the path without its last
    segment. *)
Lemma dirname_render (cs : list string) (name : string) :
  Forall proper cs -> proper name ->
  dirname (render (cs ++ [name])) = render cs.
Proof.
  intros Hcs (Hslash & Hne & _).
  assert (Hlen : 1 <= String.length name).
  { destruct name; [contradiction | simpl; lia]. }
  destruct cs as [|x t].
  - change (render ([] ++ [name])) with (String slash name).
    unfold dirname. simpl String.length. simpl Nat.eqb.
    rewrite dirnameScan_no_slash; [reflexivity|].
    intros j Hj. destruct j as [|j]; [lia|].
    apply (isSlashAt_no_slash name Hslash).
  - rewrite RenderFacts.render_app by discriminate.
    change (String.concat "/" [name]) with name.
    change (render (x :: t) ++ "/" ++ name)
      with (render (x :: t) ++ String slash name).
    assert (Hx : x <> "") by (inversion Hcs as [|? ? (_ & H0 & _) _]; exact H0).
    pose proof (length_render_ge x t Hx) as Hge.
    now apply dirname_last_segment.
Qed.

End DirnameFacts.

Lemma navigate_accepted (h : Host) (s : Session) (newPath : string) :
  aboveWorkspaceRoot h newPath = false ->
  currentPath (navigateToPathAndUpdateQuickPick h s newPath) = newPath
  /\ items (navigateToPathAndUpdateQuickPick h s newPath)
     = fst (getDirectoryItems h newPath)
  /\ title (navigateToPathAndUpdateQuickPick h s newPath) = titleOf h newPath
  /\ value (navigateToPathAndUpdateQuickPick h s newPath) = "".
Proof.
  intros Hok. unfold navigateToPathAndUpdateQuickPick. rewrite Hok.
  destruct (getDirectoryItems h newPath); repeat split; reflexivity.
Qed.

Lemma startsWith_append_r (s p t : string) :
  Js.startsWith s p = true -> Js.startsWith (s ++ t) p = true.
Proof.
  intros H. apply JsFacts.startsWith_inv in H as [r ->].
  rewrite JsFacts.append_assoc. apply JsFacts.startsWith_append.
Qed.

Lemma render_snoc_extends (cs : list string) (name : string) :
  exists t, render (cs ++ [name]) = render cs ++ t.
Proof.
  destruct cs as [|x cs].
  - now exists name.
  - exists ("/" ++ name). now rewrite RenderFacts.render_app by discriminate.
Qed.

(** X10.  With POSIX paths, in a workspace whose root is an absolute path
    other than [/], the Go Up button pressed at the workspace root is
    refused: the parent of the root is shorter than the root, and the
    session is left as it was but for the console line. *)
Theorem go_up_at_root_is_refused (h : Host) (root : string) (rest : list string)
  (s : Session) :
  dirname h = Posix.dirname ->
  workspaceFolders h = Some (root :: rest) ->
  Posix.isAbsolute root = true ->
  root <> "/" ->
  currentPath s = root ->
  onDidTriggerButton h s "Go Up"
  = consoleLog s "Prevented navigation above workspace root".
Proof.
  intros Hdir Hws Habs Hne Hcur.
  unfold onDidTriggerButton. simpl.
  unfold navigateToPathAndUpdateQuickPick.
  rewrite (aboveWorkspaceRoot_prefix h root rest Hws), Hcur, Hdir.
  destruct (Js.startsWith (Posix.dirname root) root) eqn:Hp; [|reflexivity].
  apply JsFacts.startsWith_length in Hp.
  pose proof (DirnameFacts.dirname_shorter root Habs Hne). lia.
Qed.

Lemma go_up_at_root_is_refused_witness :
  currentPath (show Sample.rootHost loaded) = "/ws"
  /\ onDidTriggerButton Sample.rootHost (show Sample.rootHost loaded) "Go Up"
     = consoleLog (show Sample.rootHost loaded)
         "Prevented navigation above workspace root".
Proof.
  split; [reflexivity|].
  apply (go_up_at_root_is_refused Sample.rootHost "/ws" []);
    try reflexivity.
  discriminate.
Defined.

(** X11.  With POSIX paths, from a directory in normal form that starts
    with the workspace root, accepting the item of a child directory and
    then pressing Go Up leads back: after the first step the current
    directory is the child, after the second it is the starting directory
    again, with its listing, its title and an empty input box. *)
Theorem into_child_and_up_again (h : Host) (root : string) (rest : list string)
  (cs : list string) (name : string) (st : Stats.t) (s : Session) :
  join h = Posix.join ->
  dirname h = Posix.dirname ->
  workspaceFolders h = Some (root :: rest) ->
  Forall Posix.proper cs ->
  Posix.proper name ->
  Js.startsWith (render cs) root = true ->
  Stats.isDirectory st = true ->
  currentPath s = render cs ->
  currentPath
    (handle h s (Accept (Some (childItem name (join h [render cs; name]) st))))
  = render (cs ++ [name])
  /\ showsListing h
       (run h s [Accept (Some (childItem name (join h [render cs; name]) st));
                 TriggerButton "Go Up"])
  /\ currentPath
       (run h s [Accept (Some (childItem name (join h [render cs; name]) st));
                 TriggerButton "Go Up"])
     = render cs
  /\ items
       (run h s [Accept (Some (childItem name (join h [render cs; name]) st));
                 TriggerButton "Go Up"])
     = fst (getDirectoryItems h (render cs))
  /\ value
       (run h s [Accept (Some (childItem name (join h [render cs; name]) st));
                 TriggerButton "Go Up"])
     = "".
Proof.
  intros Hjoin Hdir Hws Hcs Hname Hroot Hst Hcur.
  assert (Hchild : join h [render cs; name] = render (cs ++ [name])).
  { rewrite Hjoin.
    apply (RenderFacts.join_render cs [name]); auto. discriminate. }
  assert (Hin : aboveWorkspaceRoot h (render (cs ++ [name])) = false).
  { rewrite (aboveWorkspaceRoot_prefix h root rest Hws).
    destruct (render_snoc_extends cs name) as [t ->].
    now rewrite startsWith_append_r. }
  assert (Hup : aboveWorkspaceRoot h (render cs) = false).
  { now rewrite (aboveWorkspaceRoot_prefix h root rest Hws), Hroot. }
  assert (Hfirst :
    handle h s (Accept (Some (childItem name (join h [render cs; name]) st)))
    = navigateToPathAndUpdateQuickPick h s (render (cs ++ [name]))).
  { simpl. unfold acceptAction.
    rewrite childItem_label_directory by assumption.
    destruct (String.eqb_spec (name ++ "/") "..") as [E|_].
    { now apply directory_label_not_parent in E. }
    simpl. now rewrite Hst, Hchild. }
  destruct (navigate_accepted h s _ Hin) as (Hc1 & _).
  assert (Hsecond :
    run h s [Accept (Some (childItem name (join h [render cs; name]) st));
             TriggerButton "Go Up"]
    = navigateToPathAndUpdateQuickPick h
        (navigateToPathAndUpdateQuickPick h s (render (cs ++ [name])))
        (render cs)).
  { unfold run. cbn [fold_left]. rewrite Hfirst.
    cbn [handle]. unfold onDidTriggerButton. rewrite String.eqb_refl.
    now rewrite Hc1, Hdir, DirnameFacts.dirname_render. }
  split; [now rewrite Hfirst|].
  rewrite Hsecond.
  destruct (navigate_accepted h
              (navigateToPathAndUpdateQuickPick h s (render (cs ++ [name])))
              _ Hup) as (Hc2 & Hi2 & Ht2 & Hv2).
  split; [|auto].
  apply fresh_listing_showsListing; now rewrite Hc2.
Qed.

Lemma src_proper : Posix.proper "src".
Proof. repeat split; discriminate. Qed.

Lemma into_child_and_up_again_witness :
  currentPath (show Sample.rootHost loaded) = render ["ws"]
  /\ currentPath
       (handle Sample.rootHost (show Sample.rootHost loaded)
          (Accept (Some (childItem "src"
                           (join Sample.rootHost [render ["ws"]; "src"])
                           Sample.dir))))
     = "/ws/src"
  /\ currentPath
       (run Sample.rootHost (show Sample.rootHost loaded)
          [Accept (Some (childItem "src"
                           (join Sample.rootHost [render ["ws"]; "src"])
                           Sample.dir));
           TriggerButton "Go Up"])
     = "/ws".
Proof.
  destruct (into_child_and_up_again Sample.rootHost "/ws" [] ["ws"] "src"
              Sample.dir (show Sample.rootHost loaded)
              eq_refl eq_refl eq_refl ws_proper src_proper eq_refl eq_refl
              eq_refl) as (H1 & _ & H2 & _).
  split; [reflexivity|]. split; [exact H1 | exact H2].
Defined.

(** ** Opening the picker from a file *)

(** X12.  With POSIX paths and a workspace root in normal form other than
    [/], the command run from a file that lies under the root opens the
    picker in the directory of that file; the title is the marker followed
    by the relative directory closed by a slash, and the bare marker when
    the file lies directly in the root. *)
Theorem picker_opens_in_directory_of_file (h : Host) (rs : list string)
  (rest : list string) (ns : list string) (file : string) :
  join h = Posix.join ->
  dirname h = Posix.dirname ->
  sep h = "/" ->
  workspaceFolders h = Some (render rs :: rest) ->
  rs <> [] ->
  Forall Posix.proper rs ->
  Forall Posix.proper ns ->
  Posix.proper file ->
  activeTextEditor h = Some (render (rs ++ ns ++ [file])) ->
  currentPath (show h loaded) = render (rs ++ ns)
  /\ visible (show h loaded) = true
  /\ value (show h loaded) = ""
  /\ items (show h loaded) = fst (getDirectoryItems h (render (rs ++ ns)))
  /\ title (show h loaded)
     = ">>> " ++ match ns with
                 | [] => ""
                 | _ :: _ => String.concat "/" ns ++ "/"
                 end.
Proof.
  intros Hjoin Hdir Hsep Hws Hne Hrs Hns Hfile Hed.
  assert (Hparent : dirname h (render (rs ++ ns ++ [file])) = render (rs ++ ns)).
  { rewrite Hdir, app_assoc. apply DirnameFacts.dirname_render; [|exact Hfile].
    apply Forall_app. now split. }
  assert (Hrel : getRelativePath h (render (rs ++ ns))
                 = match ns with
                   | [] => ""
                   | _ :: _ => String.concat "/" ns ++ "/"
                   end).
  { destruct ns as [|n ns].
    - rewrite app_nil_r. now apply (getRelativePath_root h (render rs) rest).
    - rewrite RenderFacts.render_app by (auto; discriminate).
      rewrite (getRelativePath_after_slash h rs rest Hws Hsep).
      unfold withTrailingSlash.
      rewrite RenderFacts.endsWith_concat by (auto; discriminate).
      destruct (String.eqb_spec (String.concat "/" (n :: ns)) "") as [E0|_];
        [|reflexivity].
      apply NormalizeFacts.concat_not_empty in E0;
        [contradiction|discriminate|auto]. }
  unfold show. rewrite Hed, Hparent. unfold showQuickPick, titleOf.
  cbn [currentPath setCurrentPath]. rewrite Hrel.
  destruct (getDirectoryItems h (render (rs ++ ns))) as [its msgs] eqn:E.
  cbn [currentPath visible value items title fst].
  repeat split.
Qed.

Lemma src_segments_proper : Forall Posix.proper ["src"].
Proof. repeat constructor; discriminate. Qed.

Lemma alpha_proper : Posix.proper "alpha.ts".
Proof. repeat split; discriminate. Qed.

Lemma picker_opens_in_directory_of_file_witness :
  activeTextEditor Sample.srcHost = Some (render (["ws"] ++ ["src"] ++ ["alpha.ts"]))
  /\ currentPath (show Sample.srcHost loaded) = "/ws/src"
  /\ title (show Sample.srcHost loaded) = ">>> src/".
Proof.
  destruct (picker_opens_in_directory_of_file Sample.srcHost ["ws"] [] ["src"]
              "alpha.ts" eq_refl eq_refl eq_refl eq_refl ltac:(discriminate)
              ws_proper src_segments_proper alpha_proper eq_refl)
    as (Hcur & _ & _ & _ & Htitle).
  split; [reflexivity|]. split; [exact Hcur | exact Htitle].
Defined.

(** ** Creating a file *)

Section Create.
Variable h : Host.
Variable s : Session.
Variable query : string.
Hypothesis Htrim0 : trim h "" = "".
Hypothesis Hno :
  forall e, In e (items s) -> isStub e = false -> nameContains h e query = false.
Hypothesis Hquery : trim h query <> "".

Lemma typed_items :
  items (changeValue h s query)
  = (withoutStubs (items s) ++ [createFileItem h (currentPath s) query])%list.
Proof.
  simpl. rewrite onDidChangeValue_unfold.
  destruct (String.eqb_spec query "") as [->|_]; [contradiction|].
  rewrite (hasMatchingItems_false h (items s) query Hno).
  destruct (String.eqb_spec (trim h query) "") as [?|_]; [contradiction|].
  reflexivity.
Qed.

Lemma accept_stub :
  onDidAccept h (changeValue h s query)
    (Some (createFileItem h (currentPath s) query))
  = perform h (changeValue h s query)
      (CreateAndOpen (join h [currentPath s; query])).
Proof. reflexivity. Qed.

End Create.

(** X13.  When the typed text matches no entry of the directory and is not
    blank, its create-file item is displayed last, and accepting it acts on
    [join(currentPath, text)] alone.  If the file is written and shown, the
    picker is hidden.  If writing fails, nothing is recorded as written, one
    message is shown and the picker stays open with the same items.  If
    writing succeeds but the document cannot be shown, the file has been
    written, the same message is shown and the picker stays open.  In no
    case does the current directory change. *)
Theorem creating_a_file (h : Host) (s : Session) (query : string) :
  trim h "" = "" ->
  (forall e, In e (items s) -> isStub e = false ->
             nameContains h e query = false) ->
  trim h query <> "" ->
  let target := join h [currentPath s; query] in
  let typed := changeValue h s query in
  let accepted := onDidAccept h typed (Some (createFileItem h (currentPath s) query)) in
  (exists others,
     items typed = (others ++ [createFileItem h (currentPath s) query])%list)
  /\ currentPath accepted = currentPath s
  /\ items accepted = items typed
  /\ (writeFile h target = Ok tt -> openAndShow h target = Ok tt ->
      written accepted = (written s ++ [target])%list
      /\ shown accepted = (shown s ++ [target])%list
      /\ visible accepted = false
      /\ errorMessages accepted = errorMessages s)
  /\ (forall error, writeFile h target = Throw error ->
      written accepted = written s
      /\ shown accepted = shown s
      /\ visible accepted = visible s
      /\ errorMessages accepted
         = (errorMessages s ++ [("Failed to create file: " ++ error)%string])%list)
  /\ (forall error, writeFile h target = Ok tt ->
      openAndShow h target = Throw error ->
      written accepted = (written s ++ [target])%list
      /\ shown accepted = shown s
      /\ visible accepted = visible s
      /\ errorMessages accepted
         = (errorMessages s ++ [("Failed to create file: " ++ error)%string])%list).
Proof.
  intros Htrim0 Hno Hquery target typed accepted.
  subst accepted typed target.
  split.
  { exists (withoutStubs (items s)). now apply typed_items. }
  rewrite accept_stub. unfold perform.
  destruct (writeFile h (join h [currentPath s; query])) as [[]|e1] eqn:Hw;
    [destruct (openAndShow h (join h [currentPath s; query])) as [[]|e2] eqn:Ho|];
    simpl.
  - repeat split; try reflexivity; congruence.
  - repeat split; try reflexivity; congruence.
  - repeat split; try reflexivity; congruence.
Qed.

Lemma creating_a_file_witness :
  trim Sample.rootHost "newthing" <> ""
  /\ written
       (onDidAccept Sample.rootHost
          (changeValue Sample.rootHost (show Sample.rootHost loaded) "newthing")
          (Some (createFileItem Sample.rootHost "/ws" "newthing")))
     = ["/ws/newthing"]
  /\ visible
       (onDidAccept Sample.rootHost
          (changeValue Sample.rootHost (show Sample.rootHost loaded) "newthing")
          (Some (createFileItem Sample.rootHost "/ws" "newthing")))
     = false.
Proof.
  assert (Hq : trim Sample.rootHost "newthing" <> "") by (vm_compute; discriminate).
  assert (Hno : forall e, In e (items (show Sample.rootHost loaded)) ->
                          isStub e = false ->
                          nameContains Sample.rootHost e "newthing" = false).
  { intros e [<-|[<-|[]]] _; reflexivity. }
  destruct (creating_a_file Sample.rootHost (show Sample.rootHost loaded)
              "newthing" eq_refl Hno Hq) as (_ & _ & _ & Hok & _).
  destruct (Hok eq_refl eq_refl) as (Hw & _ & Hv & _).
  split; [exact Hq|]. split; [exact Hw | exact Hv].
Defined.

(** ** Without a workspace, and the two ways up *)

Lemma no_workspace_relative (h : Host) (path : string) :
  workspaceFolders h = None \/ workspaceFolders h = Some [] ->
  getRelativePath h path = path.
Proof. intros [E|E]; unfold getRelativePath; now rewrite E. Qed.

Lemma no_workspace_boundary (h : Host) (path : string) :
  workspaceFolders h = None \/ workspaceFolders h = Some [] ->
  aboveWorkspaceRoot h path = false.
Proof. intros [E|E]; unfold aboveWorkspaceRoot; now rewrite E. Qed.

(** X14.  When no workspace folder is open (the list is undefined or
    empty) and the command is run from a file, no boundary applies: in every
    state of the session the title shows the marker and the full path of the
    current directory, the Go Up button always moves to the parent
    directory, and the listing that follows holds no go-up item of its own
    making. *)
Theorem session_without_workspace (h : Host) (fsPath : string) (s : Session) :
  workspaceFolders h = None \/ workspaceFolders h = Some [] ->
  activeTextEditor h = Some fsPath ->
  Reachable h s ->
  title s = ">>> " ++ currentPath s
  /\ currentPath (onDidTriggerButton h s "Go Up") = dirname h (currentPath s)
  /\ (forall files,
        readdir h (dirname h (currentPath s)) = Ok files -> ~ In ".." files ->
        Forall (fun item => label item <> "..")
          (items (onDidTriggerButton h s "Go Up"))).
Proof.
  intros Hws Hed Hs.
  assert (Hopen : visible (show h loaded) = true).
  { unfold show. rewrite Hed. unfold showQuickPick.
    now destruct (getDirectoryItems h _). }
  assert (Hinv : showsListing h s).
  { clear - Hopen Hs. induction Hs as [|s e _ IH _ _].
    - now apply show_showsListing.
    - now apply handle_showsListing. }
  destruct Hinv as (Htitle & _).
  split.
  { rewrite Htitle. unfold titleOf. now rewrite no_workspace_relative. }
  unfold onDidTriggerButton. rewrite String.eqb_refl.
  destruct (navigate_accepted h s (dirname h (currentPath s))
              (no_workspace_boundary h _ Hws)) as (Hc & Hi & _).
  split; [exact Hc|].
  intros files Hread Hno. rewrite Hi.
  unfold getDirectoryItems, tryDirectoryItems. rewrite Hread. simpl.
  match goal with
  | |- context [statLoop h ?d files ?c] =>
      destruct (statLoop h d files c) as [built|e] eqn:Hloop
  end; simpl; [|constructor].
  apply (statLoop_appends h _ files Hno) in Hloop as (children & -> & Hall).
  eapply Permutation_Forall; [apply sort_permutation|].
  apply Forall_app. split.
  - destruct Hws as [E|E]; rewrite E; constructor.
  - eapply Forall_impl; [|exact Hall]. now intros item [H _].
Qed.

Lemma session_without_workspace_witness :
  workspaceFolders
    (Sample.posixHost None (Some "/other/notes.txt") Sample.wsChildren
       Sample.wsStats) = None
  /\ title
       (show (Sample.posixHost None (Some "/other/notes.txt") Sample.wsChildren
                Sample.wsStats) loaded)
     = ">>> /other"
  /\ currentPath
       (onDidTriggerButton
          (Sample.posixHost None (Some "/other/notes.txt") Sample.wsChildren
             Sample.wsStats)
          (show (Sample.posixHost None (Some "/other/notes.txt")
                   Sample.wsChildren Sample.wsStats) loaded)
          "Go Up")
     = "/".
Proof.
  destruct (session_without_workspace
              (Sample.posixHost None (Some "/other/notes.txt") Sample.wsChildren
                 Sample.wsStats)
              "/other/notes.txt"
              (show (Sample.posixHost None (Some "/other/notes.txt")
                       Sample.wsChildren Sample.wsStats) loaded)
              (or_introl eq_refl) eq_refl (reach_show _))
    as (Ht & Hc & _).
  split; [reflexivity|]. split; [exact Ht | exact Hc].
Defined.

(** X15.  Accepting any item labelled [..] does exactly what the Go Up
    button does: both navigate to the parent of the current directory, and
    the path stored in the item plays no part. *)
Theorem accepting_parent_link_is_go_up (h : Host) (s : Session) (item : FileItem) :
  label item = ".." ->
  onDidAccept h s (Some item) = onDidTriggerButton h s "Go Up".
Proof.
  intros Hl. unfold onDidAccept, acceptAction, onDidTriggerButton.
  now rewrite Hl.
Qed.

Lemma accepting_parent_link_is_go_up_witness :
  label (goUpItem Sample.srcHost "/ws/src") = ".."
  /\ onDidAccept Sample.srcHost (show Sample.srcHost loaded)
       (Some (goUpItem Sample.srcHost "/ws/src"))
     = onDidTriggerButton Sample.srcHost (show Sample.srcHost loaded) "Go Up".
Proof.
  split; [reflexivity|].
  exact (accepting_parent_link_is_go_up Sample.srcHost
           (show Sample.srcHost loaded) (goUpItem Sample.srcHost "/ws/src")
           eq_refl).
Defined.

(** ** The current directory stays under the root *)

Section Nesting.
Variable h : Host.
Variables (rs : list string) (rest : list string).
Hypothesis Hjoin : join h = Posix.join.
Hypothesis Hdir : dirname h = Posix.dirname.
Hypothesis Hws : workspaceFolders h = Some (render rs :: rest).
Hypothesis Hrs : Forall Posix.proper rs.
Hypothesis Hchildren : properChildren h.

Lemma under_render (ns : list string) :
  Forall Posix.proper ns -> Under (render rs) (render (rs ++ ns)).
Proof.
  intros Hns. destruct ns as [|n ns].
  - rewrite app_nil_r. constructor.
  - destruct rs as [|r rs0].
    + change (render ([] ++ n :: ns))
        with (render [] ++ String.concat "/" (n :: ns)).
      apply under_direct. now exists "".
    + rewrite RenderFacts.render_app by discriminate. apply under_sep.
Qed.

Lemma statLoop_navigable (p : string) (files : list string) :
  Forall Posix.proper files ->
  forall collected items,
    Forall (navigable h p) collected ->
    statLoop h p files collected = Ok items ->
    Forall (navigable h p) items.
Proof.
  induction 1 as [|f files Hf _ IH]; intros collected items Hc Hok; simpl in Hok.
  - now inversion Hok; subst.
  - destruct (stat h (join h [p; f])) as [st|e]; [|discriminate]. simpl in Hok.
    eapply IH; [|exact Hok].
    apply Forall_app. split; [exact Hc|].
    constructor; [|constructor].
    right. right. exists f. now split.
Qed.

(** Every item of a listing is the go-up item or the item of a child. *)
Lemma listing_navigable (p : string) :
  Forall (navigable h p) (fst (getDirectoryItems h p)).
Proof.
  unfold getDirectoryItems, tryDirectoryItems.
  destruct (readdir h p) as [files|e] eqn:Hread; simpl; [|constructor].
  match goal with
  | |- context [statLoop h p files ?c] =>
      destruct (statLoop h p files c) as [built|e] eqn:Hloop
  end; simpl; [|constructor].
  eapply Permutation_Forall; [apply sort_permutation|].
  eapply statLoop_navigable; [exact (Hchildren p files Hread)| |exact Hloop].
  rewrite Hws. destruct (negb (p =? render rs)); repeat constructor.
Qed.

Lemma nestedSession_same (s s' : Session) :
  currentPath s' = currentPath s -> items s' = items s ->
  nestedSession h rs s -> nestedSession h rs s'.
Proof.
  intros Hc Hi Hs. unfold nestedSession. now rewrite Hc, Hi.
Qed.

(** An accepted target under the root keeps the session nested. *)
Lemma navigate_nested (s : Session) (ns : list string) :
  Forall Posix.proper ns ->
  nestedSession h rs s ->
  nestedSession h rs (navigateToPathAndUpdateQuickPick h s (render (rs ++ ns))).
Proof.
  intros Hns Hs.
  destruct (aboveWorkspaceRoot h (render (rs ++ ns))) eqn:Hb.
  - unfold navigateToPathAndUpdateQuickPick. rewrite Hb.
    now apply (nestedSession_same s).
  - destruct (navigate_accepted h s _ Hb) as (Hc & Hi & _).
    split.
    + exists ns. now split.
    + rewrite Hc, Hi. apply listing_navigable.
Qed.

(** Where Go Up leads when it is not refused. *)
Lemma up_target (ns : list string) :
  Forall Posix.proper ns ->
  aboveWorkspaceRoot h (Posix.dirname (render (rs ++ ns))) = false ->
  exists ns',
    Forall Posix.proper ns'
    /\ Posix.dirname (render (rs ++ ns)) = render (rs ++ ns').
Proof.
  intros Hns Hb. destruct ns as [|n ns0].
  - rewrite app_nil_r in *. destruct rs as [|r rs0] eqn:Ers.
    + exists []. split; [constructor | reflexivity].
    + exfalso.
      rewrite (aboveWorkspaceRoot_prefix h (render (r :: rs0)) rest Hws) in Hb.
      apply negb_false_iff, JsFacts.startsWith_length in Hb.
      assert (Hr : r <> "") by (inversion Hrs as [|? ? (_ & H0 & _) _]; exact H0).
      pose proof (DirnameFacts.length_render_ge r rs0 Hr) as Hge.
      assert (Hne : render (r :: rs0) <> "/").
      { intros E. rewrite E in Hge. simpl in Hge. lia. }
      pose proof (DirnameFacts.dirname_shorter (render (r :: rs0))
                    (RenderFacts.isAbsolute_render _) Hne).
      lia.
  - assert (Hne : n :: ns0 <> []) by discriminate.
    destruct (exists_last Hne) as (front & final & E). rewrite E in *.
    apply Forall_app in Hns as [Hfront Hfinal].
    exists front. split; [exact Hfront|].
    rewrite app_assoc. apply DirnameFacts.dirname_render.
    + apply Forall_app. now split.
    + now inversion Hfinal.
Qed.

Lemma go_up_nested (s : Session) :
  nestedSession h rs s ->
  nestedSession h rs
    (navigateToPathAndUpdateQuickPick h s (dirname h (currentPath s))).
Proof.
  intros Hs. destruct Hs as [(ns & Hns & Hcur) Hitems].
  assert (Hnested : nestedSession h rs s) by (split; eauto).
  destruct (aboveWorkspaceRoot h (dirname h (currentPath s))) eqn:Hb.
  - unfold navigateToPathAndUpdateQuickPick. rewrite Hb.
    now apply (nestedSession_same s).
  - rewrite Hcur, Hdir in *.
    destruct (up_target ns Hns Hb) as (ns' & Hns' & ->).
    now apply navigate_nested.
Qed.

Lemma into_child_nested (s : Session) (item : FileItem) :
  nestedSession h rs s ->
  navigable h (currentPath s) item ->
  (label item =? "..") = false ->
  isStub item = false ->
  nestedSession h rs (navigateToPathAndUpdateQuickPick h s (uri item)).
Proof.
  intros Hs [Hl|[Hst|(file & Hfile & Huri)]] Hlabel Hstub.
  - apply String.eqb_neq in Hlabel. contradiction.
  - congruence.
  - destruct Hs as [(ns & Hns & Hcur) Hitems].
    assert (Hnested : nestedSession h rs s) by (split; eauto).
    rewrite Huri, Hcur, Hjoin.
    change (Posix.join [render (rs ++ ns); file])
      with (Posix.join [render (rs ++ ns); String.concat "/" [file]]).
    rewrite (RenderFacts.join_render (rs ++ ns) [file]);
      [|apply Forall_app; now split
       |constructor; [exact Hfile|constructor]
       |discriminate].
    rewrite <- app_assoc. apply navigate_nested; [|exact Hnested].
    apply Forall_app. split; [exact Hns|].
    constructor; [exact Hfile|constructor].
Qed.

Lemma changeValue_nested (s : Session) (v : string) :
  nestedSession h rs s -> nestedSession h rs (changeValue h s v).
Proof.
  intros [Hcur Hitems]. split; [exact Hcur|]. simpl.
  assert (Hreal : Forall (navigable h (currentPath s)) (withoutStubs (items s))).
  { apply Forall_forall. intros e He. apply filter_In in He as [He _].
    exact (proj1 (Forall_forall _ _) Hitems e He). }
  rewrite onDidChangeValue_unfold.
  destruct (v =? ""); [exact Hreal|].
  destruct (negb _ && negb _); [|exact Hitems].
  apply Forall_app. split; [exact Hreal|].
  constructor; [|constructor]. right. now left.
Qed.

Lemma handle_nested (s : Session) (e : Event) :
  nestedSession h rs s -> possible s e -> nestedSession h rs (handle h s e).
Proof.
  intros Hs Hposs. destruct e as [[item|]|v|tooltip]; simpl.
  - simpl in Hposs.
    assert (Hitem : navigable h (currentPath s) item).
    { destruct Hs as [_ Hitems].
      exact (proj1 (Forall_forall _ _) Hitems item Hposs). }
    unfold acceptAction.
    destruct (label item =? "..") eqn:Hl; [now apply go_up_nested|].
    fold (isStub item). destruct (isStub item) eqn:Hstub.
    + simpl. destruct (writeFile h (uri item));
        [destruct (openAndShow h (uri item))|];
        now apply (nestedSession_same s).
    + destruct (isDirectory item); simpl.
      * now apply into_child_nested.
      * destruct (openAndShow h (uri item)); [|exact Hs].
        now apply (nestedSession_same s).
  - exact Hs.
  - now apply changeValue_nested.
  - unfold onDidTriggerButton. destruct (tooltip =? "Go Up"); [|exact Hs].
    now apply go_up_nested.
Qed.

Lemma showQuickPick_items (s : Session) :
  items (showQuickPick h s) = fst (getDirectoryItems h (currentPath s)).
Proof.
  unfold showQuickPick.
  destruct (getDirectoryItems h (currentPath s)) eqn:E. reflexivity.
Qed.

Lemma show_nested (ns : list string) :
  Forall Posix.proper ns ->
  currentPath (show h loaded) = render (rs ++ ns) ->
  nestedSession h rs (show h loaded).
Proof.
  intros Hns Hcur. split; [now exists ns|].
  assert (Hitems : items (show h loaded)
                   = fst (getDirectoryItems h (currentPath (show h loaded)))).
  { unfold show. rewrite Hws.
    destruct (activeTextEditor h);
      now rewrite showQuickPick_items, showQuickPick_currentPath. }
  rewrite Hitems. apply listing_navigable.
Qed.

Lemma reachable_nested (ns : list string) :
  Forall Posix.proper ns ->
  currentPath (show h loaded) = render (rs ++ ns) ->
  forall s, Reachable h s -> nestedSession h rs s.
Proof.
  intros Hns Hcur s Hs. induction Hs as [|s e _ IH _ Hposs].
  - now apply (show_nested ns).
  - now apply handle_nested.
Qed.

End Nesting.

(** C1, as the code has it.  The session starts in the workspace root when
    no editor is active, and otherwise in the directory of the active file,
    which is not compared with the root.  Navigation to a target that does
    not start with the root, and so to any target shorter than the root, is
    refused: the session is left as it was, with a line on the console and
    no message to the user.  With POSIX paths, a root in normal form and
    children named as [readdir] names them, a session that starts in the
    root or in a directory nested under it stays there: in every reachable
    state the current directory is the root's segments followed by further
    segments, that is, the root or a directory under it. *)
Theorem navigation_stays_under_root (h : Host) (rs : list string)
  (rest : list string) :
  join h = Posix.join ->
  dirname h = Posix.dirname ->
  workspaceFolders h = Some (render rs :: rest) ->
  Forall Posix.proper rs ->
  properChildren h ->
  (activeTextEditor h = None -> currentPath (show h loaded) = render rs)
  /\ (forall fsPath, activeTextEditor h = Some fsPath ->
        currentPath (show h loaded) = Posix.dirname fsPath)
  /\ (forall s target,
        Js.startsWith target (render rs) = false
        \/ String.length target < String.length (render rs) ->
        navigateToPathAndUpdateQuickPick h s target
        = consoleLog s "Prevented navigation above workspace root")
  /\ (forall ns0,
        Forall Posix.proper ns0 ->
        currentPath (show h loaded) = render (rs ++ ns0) ->
        forall s, Reachable h s ->
          (exists ns, Forall Posix.proper ns /\ currentPath s = render (rs ++ ns))
          /\ Under (render rs) (currentPath s)).
Proof.
  intros Hjoin Hdir Hws Hrs Hchildren. repeat split.
  - intros Hed. unfold show. rewrite Hed, Hws.
    now rewrite showQuickPick_currentPath.
  - intros fsPath Hed. unfold show. rewrite Hed, Hdir.
    now rewrite showQuickPick_currentPath.
  - intros s target Hout.
    unfold navigateToPathAndUpdateQuickPick.
    rewrite (aboveWorkspaceRoot_prefix h (render rs) rest Hws).
    assert (Hp : Js.startsWith target (render rs) = false).
    { destruct Hout as [Hp|Hlen]; [exact Hp|].
      destruct (Js.startsWith target (render rs)) eqn:Hp; [|reflexivity].
      apply JsFacts.startsWith_length in Hp. lia. }
    now rewrite Hp.
  - destruct (reachable_nested h rs rest Hjoin Hdir Hws Hrs Hchildren ns0 H H0 s H1)
      as [Hcur _]. exact Hcur.
  - destruct (reachable_nested h rs rest Hjoin Hdir Hws Hrs Hchildren ns0 H H0 s H1)
      as [(ns & Hns & ->) _].
    eapply under_render; eassumption.
Qed.

Lemma lookup_In {A : Type} (table : list (string * A)) (key : string) (v : A) :
  Sample.lookup table key = Some v -> In (key, v) table.
Proof.
  induction table as [|[k w] table IH]; simpl; [discriminate|].
  destruct (String.eqb_spec k key) as [->|_].
  - intros E. inversion E. now left.
  - intros E. right. now apply IH.
Qed.

Lemma wsHost_properChildren (editor : option string) :
  properChildren (Sample.wsHost editor).
Proof.
  intros dir files.
  change (readdir (Sample.wsHost editor) dir)
    with (match Sample.lookup Sample.wsChildren dir with
          | Some names => Ok names
          | None => Throw "ENOENT: no such file or directory, scandir"
          end).
  destruct (Sample.lookup Sample.wsChildren dir) as [names|] eqn:E;
    [|discriminate].
  intros Hok. inversion Hok; subst names. apply lookup_In in E.
  destruct E as [E|[E|[E|[]]]]; inversion E; subst;
    repeat (constructor;
            [repeat split; first [reflexivity | discriminate]|]);
    constructor.
Qed.

Lemma navigation_stays_under_root_witness :
  workspaceFolders Sample.srcHost = Some [render ["ws"]]
  /\ currentPath (show Sample.srcHost loaded) = render (["ws"] ++ ["src"])
  /\ Reachable Sample.srcHost
       (handle Sample.srcHost
          (handle Sample.srcHost (show Sample.srcHost loaded)
             (TriggerButton "Go Up"))
          (TriggerButton "Go Up"))
  /\ Under "/ws"
       (currentPath
          (handle Sample.srcHost
             (handle Sample.srcHost (show Sample.srcHost loaded)
                (TriggerButton "Go Up"))
             (TriggerButton "Go Up"))).
Proof.
  assert (R : Reachable Sample.srcHost
                (handle Sample.srcHost
                   (handle Sample.srcHost (show Sample.srcHost loaded)
                      (TriggerButton "Go Up"))
                   (TriggerButton "Go Up"))).
  { apply reach_handle; [|reflexivity|exact I].
    apply reach_handle; [|reflexivity|exact I].
    apply reach_show. }
  destruct (navigation_stays_under_root Sample.srcHost ["ws"] []
              eq_refl eq_refl eq_refl ws_proper
              (wsHost_properChildren (Some "/ws/src/alpha.ts")))
    as (_ & _ & _ & Hstay).
  split; [reflexivity|]. split; [reflexivity|]. split; [exact R|].
  exact (proj2 (Hstay ["src"] src_segments_proper eq_refl _ R)).
Defined.

(** C1 as stated fails at the first state of a session opened from a file
    outside the workspace: the picker shows [/other], which is neither the
    root [/ws] nor nested under it (it does not even begin with the root),
    and going up from there is refused. *)
Lemma session_can_start_outside_root :
  workspaceFolders Sample.outsideHost = Some ["/ws"]
  /\ Reachable Sample.outsideHost (show Sample.outsideHost loaded)
  /\ visible (show Sample.outsideHost loaded) = true
  /\ currentPath (show Sample.outsideHost loaded) = "/other"
  /\ map label (items (show Sample.outsideHost loaded)) = [".."; "notes.txt"]
  /\ ~ Under "/ws" (currentPath (show Sample.outsideHost loaded))
  /\ Js.startsWith (currentPath (show Sample.outsideHost loaded)) "/ws" = false
  /\ currentPath
       (handle Sample.outsideHost (show Sample.outsideHost loaded)
          (TriggerButton "Go Up"))
     = "/other".
Proof.
  split; [reflexivity|]. split; [constructor|].
  split; [reflexivity|]. split; [reflexivity|]. split; [reflexivity|].
  split; [|split; reflexivity].
  change (currentPath (show Sample.outsideHost loaded)) with "/other".
  intros H. inversion H as [E|r E|r _ E]; discriminate E.
Qed.
